(** * NewsFlash: language catalog, retry policy and fallback helpers

    A shallow embedding of [language_service.py] and [error_handler.py],
    of the language settings of [config.py], and of the callers
    [NewsService.generate_summary_with_sentiment] and [TTSService]'s
    language handling.

    Python [str] values are Rocq [string]s whose characters are read as the
    code points U+0000..U+00FF; [str.lower] and [str.strip] are given on that
    range.  Python objects of other types are values of [pyval].  Code that
    can raise returns a [result]; code that calls a user function, sleeps or
    logs runs in the small state-and-trace monad [M].

    A delay is an exact rational number, standing for a Python [int] or a
    [float]: the errors of [time.sleep] and of the conversion of
    [2 ** attempt] to a [float] are part of the model, the rounding of
    floating-point arithmetic is not. *)

From Stdlib Require Import String Ascii List ZArith QArith Bool Lia.
Import ListNotations.
Open Scope string_scope.

(** ** Python strings *)

Module PyString.

(** [str.lower] on one code point below U+0100: [A-Z] and the accented
    capitals U+00C0..U+00DE (the multiplication sign U+00D7 apart). *)
Definition lower_char (c : ascii) : ascii :=
  let n := nat_of_ascii c in
  if ((65 <=? n) && (n <=? 90))%nat then ascii_of_nat (n + 32)
  else if ((192 <=? n) && (n <=? 222) && negb (n =? 215))%nat
       then ascii_of_nat (n + 32)
  else c.

Fixpoint lower (s : string) : string :=
  match s with
  | EmptyString => EmptyString
  | String c r => String (lower_char c) (lower r)
  end.

(** [str.isspace] on one code point below U+0100. *)
Definition is_space (c : ascii) : bool :=
  let n := nat_of_ascii c in
  (((9 <=? n) && (n <=? 13)) || ((28 <=? n) && (n <=? 32))
   || (n =? 133) || (n =? 160))%nat.

Fixpoint lstrip (s : string) : string :=
  match s with
  | EmptyString => EmptyString
  | String c r => if is_space c then lstrip r else s
  end.

(** Right strip: a character is kept when it is not a space or when
    something is kept after it. *)
Fixpoint rstrip (s : string) : string :=
  match s with
  | EmptyString => EmptyString
  | String c r =>
      match rstrip r with
      | EmptyString => if is_space c then EmptyString else String c EmptyString
      | r' => String c r'
      end
  end.

(** [s.strip()] *)
Definition strip (s : string) : string := rstrip (lstrip s).

(** [len(s)] *)
Definition len (s : string) : Z := Z.of_nat (String.length s).

(** [needle in hay] *)
Fixpoint contains (needle hay : string) : bool :=
  if String.prefix needle hay then true
  else match hay with
       | EmptyString => false
       | String _ r => contains needle r
       end.

Fixpoint take (n : nat) (s : string) : string :=
  match n, s with
  | O, _ => EmptyString
  | S _, EmptyString => EmptyString
  | S k, String c r => String c (take k r)
  end.

(** [s[:stop]]: a negative [stop] counts from the end of the string. *)
Definition slice_to (s : string) (stop : Z) : string :=
  if (stop <? 0)%Z then take (Z.to_nat (len s + stop)) s
  else take (Z.to_nat stop) s.

(** [s.split('. ')]: cut at every occurrence of a period followed by a
    space, scanning from the left; [cur] is the fragment being read. *)
Fixpoint split_period_space_from (cur s : string) : list string :=
  match s with
  | EmptyString => [cur]
  | String c r =>
      match r with
      | String c' r' =>
          if (Ascii.eqb c "." && Ascii.eqb c' " ")%bool
          then cur :: split_period_space_from EmptyString r'
          else split_period_space_from (cur ++ String c EmptyString) r
      | EmptyString => [cur ++ String c EmptyString]
      end
  end.

Definition split_period_space (s : string) : list string :=
  split_period_space_from EmptyString s.

(** [sep.join(parts)] *)
Fixpoint join (sep : string) (parts : list string) : string :=
  match parts with
  | [] => EmptyString
  | [p] => p
  | p :: rest => p ++ sep ++ join sep rest
  end.

End PyString.
Import PyString.

(** ** Python values and exceptions *)

#[warnings="-register-all"]
Inductive pyval : Type :=
| PyNone
| PyBool (b : bool)
| PyInt (z : Z)
| PyStr (s : string)
| PyList (items : list pyval).

(** Truth value of an object, as tested by [not x] and [x or y]. *)
Definition truthy (v : pyval) : bool :=
  match v with
  | PyNone => false
  | PyBool b => b
  | PyInt z => negb (z =? 0)%Z
  | PyStr s => negb (String.eqb s "")
  | PyList items => match items with [] => false | _ => true end
  end.

Definition isinstance_str (v : pyval) : bool :=
  match v with PyStr _ => true | _ => false end.

(** The exception classes of [error_handler.py], the built-in ones the
    model raises, and a class outside [Exception] (such as
    [KeyboardInterrupt]), which [except Exception] does not catch. *)
Inductive exn_class : Type :=
| ExceptionC
| AttributeErrorC
| ValueErrorC
| OverflowErrorC
| NewsFlashErrorC
| LanguageErrorC
| SentimentAnalysisErrorC
| AIServiceErrorC
| TTSErrorC
| BaseExceptionC.

Record exn : Type := mkExn { exn_cls : exn_class; exn_msg : string }.

(** [isinstance(e, Exception)] *)
Definition is_Exception (e : exn) : bool :=
  match exn_cls e with BaseExceptionC => false | _ => true end.

(** [str(e)] *)
Definition str (e : exn) : string := exn_msg e.

Inductive result (A : Type) : Type :=
| Ok (a : A)
| Raise (e : exn).
Arguments Ok {A} a.
Arguments Raise {A} e.

(** [v.lower()]: only [str] has the method, and its value is a [str]. *)
Definition py_lower (v : pyval) : result string :=
  match v with
  | PyStr s => Ok (lower s)
  | _ => Raise (mkExn AttributeErrorC "object has no attribute 'lower'")
  end.

(** ** language_service.py *)

Module LanguageService.

Record lang_data : Type := mkLang {
  name : string;
  native : string;
  tts_code : string;
  enabled : bool
}.

(** The native names are kept as the UTF-8 bytes of the source text; no
    function of the model inspects them. *)
Definition SUPPORTED_LANGUAGES : list (string * lang_data) :=
  [ ("en", mkLang "English" "English" "en" true);
    ("hi", mkLang "Hindi" "हिंदी" "hi" true);
    ("mr", mkLang "Marathi" "मराठी" "mr" true) ].

Definition DEFAULT_LANGUAGE : string := "en".

(** [dict.get(key)] *)
Fixpoint dict_get {V : Type} (d : list (string * V)) (key : string)
    : option V :=
  match d with
  | [] => None
  | (k, v) :: rest => if String.eqb k key then Some v else dict_get rest key
  end.

Definition validate_language (language_code : pyval) : bool :=
  if negb (truthy language_code) || negb (isinstance_str language_code)
  then false
  else
    match language_code with
    | PyStr s =>
        let language_code := strip (lower s) in
        match dict_get SUPPORTED_LANGUAGES language_code with
        | Some lang_data => enabled lang_data
        | None => false
        end
    | _ => false
    end.

Definition get_default_language : string := DEFAULT_LANGUAGE.

Definition normalize_language_code (language_code : pyval) : option string :=
  if negb (truthy language_code) || negb (isinstance_str language_code)
  then None
  else
    match language_code with
    | PyStr s =>
        let normalized := strip (lower s) in
        if validate_language (PyStr normalized) then Some normalized else None
    | _ => None
    end.

Definition get_fallback_language (language_code : pyval) : result pyval :=
  if validate_language language_code
  then match py_lower language_code with
       | Ok l => Ok (PyStr l)
       | Raise e => Raise e
       end
  else Ok (PyStr DEFAULT_LANGUAGE).

(** The result of code that subscripts a dict: a value, or the
    [KeyError] raised for a missing key. *)
Inductive keyed (A : Type) : Type :=
| Value (a : A)
| KeyError (key : string).
Arguments Value {A} a.
Arguments KeyError {A} key.

(** [d[key]] *)
Definition dict_index {V : Type} (d : list (string * V)) (key : string)
    : keyed V :=
  match dict_get d key with
  | Some v => Value v
  | None => KeyError key
  end.

Definition get_supported_languages : list (string * lang_data) :=
  filter (fun entry => enabled (snd entry)) SUPPORTED_LANGUAGES.

(** The three metadata getters share their shape: [None] for a code that
    does not validate, else a field of [SUPPORTED_LANGUAGES[code.lower()]]. *)
Definition get_language_name (language_code : pyval) : keyed (option string) :=
  if negb (validate_language language_code) then Value None
  else
    match language_code with
    | PyStr s =>
        match dict_index SUPPORTED_LANGUAGES (lower s) with
        | Value lang_data => Value (Some (name lang_data))
        | KeyError key => KeyError key
        end
    | _ => Value None
    end.

Definition get_native_name (language_code : pyval) : keyed (option string) :=
  if negb (validate_language language_code) then Value None
  else
    match language_code with
    | PyStr s =>
        match dict_index SUPPORTED_LANGUAGES (lower s) with
        | Value lang_data => Value (Some (native lang_data))
        | KeyError key => KeyError key
        end
    | _ => Value None
    end.

Definition get_tts_code (language_code : pyval) : keyed (option string) :=
  if negb (validate_language language_code) then Value None
  else
    match language_code with
    | PyStr s =>
        match dict_index SUPPORTED_LANGUAGES (lower s) with
        | Value lang_data => Value (Some (tts_code lang_data))
        | KeyError key => KeyError key
        end
    | _ => Value None
    end.

Definition get_language_codes : list string :=
  map fst (filter (fun entry => enabled (snd entry)) SUPPORTED_LANGUAGES).

End LanguageService.

(** ** config.py: language settings of class Config *)

Module LanguageConfig.

Record lang_info : Type := mkInfo {
  name : string;
  native : string;
  tts_code : string
}.

Definition SUPPORTED_LANGUAGES : list (string * lang_info) :=
  [ ("en", mkInfo "English" "English" "en");
    ("hi", mkInfo "Hindi" "हिंदी" "hi");
    ("mr", mkInfo "Marathi" "मराठी" "mr") ].

(** What the class reads from the environment when it is loaded:
    [os.getenv] gives [None] for a variable that is not set. *)
Record environ : Type := mkEnviron {
  env_GEMINI_API_KEY : option string;
  env_LANGSMITH_API_KEY : option string;
  env_DEFAULT_LANGUAGE : option string
}.

Section WithEnvironment.

Variable env : environ.

(** [os.getenv("DEFAULT_LANGUAGE", "en")] *)
Definition DEFAULT_LANGUAGE : string :=
  match env_DEFAULT_LANGUAGE env with
  | Some l => l
  | None => "en"
  end.

(** [not key] for a value of [os.getenv] *)
Definition key_missing (key : option string) : bool :=
  match key with
  | Some k => String.eqb k ""
  | None => true
  end.

(** [key in SUPPORTED_LANGUAGES] *)
Definition is_language_supported (language_code : string) : bool :=
  match LanguageService.dict_get SUPPORTED_LANGUAGES language_code with
  | Some _ => true
  | None => false
  end.

(** [str(list(d.keys()))] for keys without quote or escape. *)
Definition repr_keys (keys : list string) : string :=
  "[" ++ join ", " (map (fun k => "'" ++ k ++ "'") keys) ++ "]".

Definition validate_config : result bool :=
  let missing_keys : list string := [] in
  let missing_keys :=
    if key_missing (env_GEMINI_API_KEY env)
    then (missing_keys ++ ["GEMINI_API_KEY"])%list else missing_keys in
  let missing_keys :=
    if key_missing (env_LANGSMITH_API_KEY env)
    then (missing_keys ++ ["LANGSMITH_API_KEY"])%list else missing_keys in
  match missing_keys with
  | _ :: _ =>
      Raise (mkExn ValueErrorC
               ("Missing required environment variables: "
                ++ join ", " missing_keys
                ++ ". Please set them in your .env file."))
  | [] =>
      if negb (is_language_supported DEFAULT_LANGUAGE)
      then
        Raise (mkExn ValueErrorC
                 ("DEFAULT_LANGUAGE '" ++ DEFAULT_LANGUAGE
                  ++ "' is not in SUPPORTED_LANGUAGES. Must be one of: "
                  ++ repr_keys (map fst SUPPORTED_LANGUAGES)))
      else Ok true
  end.

(** [SUPPORTED_LANGUAGES.get(code, SUPPORTED_LANGUAGES[DEFAULT_LANGUAGE])]:
    the default argument is evaluated before the lookup. *)
Definition get_language_info (language_code : string)
    : LanguageService.keyed lang_info :=
  match LanguageService.dict_index SUPPORTED_LANGUAGES DEFAULT_LANGUAGE with
  | LanguageService.KeyError key => LanguageService.KeyError key
  | LanguageService.Value default_info =>
      match LanguageService.dict_get SUPPORTED_LANGUAGES language_code with
      | Some info => LanguageService.Value info
      | None => LanguageService.Value default_info
      end
  end.

(** Every entry has the key ['tts_code'], so the ['en'] of
    [lang_info.get('tts_code', 'en')] is never used. *)
Definition get_tts_language_code (language_code : string)
    : LanguageService.keyed string :=
  match get_language_info language_code with
  | LanguageService.Value lang_info =>
      LanguageService.Value (tts_code lang_info)
  | LanguageService.KeyError key => LanguageService.KeyError key
  end.

End WithEnvironment.

End LanguageConfig.

(** ** config.py: the error-handling settings *)

Record config : Type := mkConfig {
  MAX_RETRY_ATTEMPTS : Z;
  RETRY_DELAY : Q;
  ENABLE_FALLBACK_LOGGING : bool;
  SENTIMENT_FALLBACK_ENABLED : bool;
  LANGUAGE_FALLBACK_ENABLED : bool
}.

(** The values of class [Config]. *)
Definition Config : config :=
  {| MAX_RETRY_ATTEMPTS := 3;
     RETRY_DELAY := 1;
     ENABLE_FALLBACK_LOGGING := true;
     SENTIMENT_FALLBACK_ENABLED := true;
     LANGUAGE_FALLBACK_ENABLED := true |}.

(** ** Effects: user calls, sleeps and log records *)

(** What a logging call writes.  The record keeps the parts of the
    formatted message instead of the text. *)
Inductive log_record : Type :=
| LogLanguageError (operation language : string) (error : exn)
                   (fallback_used : option string)
| LogSentimentError (operation : string) (error : exn) (fallback_used : string)
| LogAIServiceError (error_type operation : string) (error : exn)
                    (retry_attempt : option Z)
| LogRetrying (func_name : string) (delay : Q) (attempt max_attempts : Z).

Inductive event : Type :=
| EvCall (language : option string)
| EvSleep (delay : Q)
| EvLog (r : log_record).

Definition is_call (ev : event) : bool :=
  match ev with EvCall _ => true | _ => false end.

(** Number of invocations of the wrapped function in a trace. *)
Definition count_calls (t : list event) : nat := List.length (filter is_call t).

(** The languages the wrapped function was invoked with, in order. *)
Fixpoint called_languages (t : list event) : list string :=
  match t with
  | [] => []
  | EvCall (Some l) :: r => l :: called_languages r
  | _ :: r => called_languages r
  end.

(** The delays slept, in order. *)
Fixpoint sleeps (t : list event) : list Q :=
  match t with
  | [] => []
  | EvSleep d :: r => d :: sleeps r
  | _ :: r => sleeps r
  end.

(** Control flow of a loop body: [return v] or fall through to the next
    iteration carrying a value. *)
Inductive flow (A B : Type) : Type :=
| Returned (a : A)
| Continue (b : B).
Arguments Returned {A B} a.
Arguments Continue {A B} b.

(** [time.sleep] first converts its argument to a signed 64-bit count of
    nanoseconds, rounding away from zero. *)
Definition sleep_nanoseconds (delay : Q) : Z :=
  let n := (Qnum delay * 1000000000)%Z in
  let d := Zpos (Qden delay) in
  if (0 <=? n)%Z then ((n + d - 1) / d)%Z
  else (- ((- n + d - 1) / d))%Z.

(** The count of nanoseconds does not fit in 64 bits. *)
Definition sleep_overflows (delay : Q) : bool :=
  let ns := sleep_nanoseconds delay in
  ((ns <? - 2 ^ 63) || (2 ^ 63 <=? ns))%Z.

Section Effects.

(** State of the world the user functions read and change. *)
Variable W : Type.

(** A computation: final result, final state, and the events in order. *)
Definition M (A : Type) : Type := W -> result A * W * list event.

Definition ret {A} (a : A) : M A := fun s => (Ok a, s, []).

Definition raise {A} (e : exn) : M A := fun s => (Raise e, s, []).

Definition bind {A B} (m : M A) (f : A -> M B) : M B :=
  fun s =>
    match m s with
    | (Ok a, s', t) => let '(r, s'', t') := f a s' in (r, s'', (t ++ t')%list)
    | (Raise e, s', t) => (Raise e, s', t)
    end.

(** [try: m  except Exception as e: handler e] *)
Definition try_except {A} (m : M A) (handler : exn -> M A) : M A :=
  fun s =>
    match m s with
    | (Raise e, s', t) =>
        if is_Exception e
        then let '(r, s'', t') := handler e s' in (r, s'', (t ++ t')%list)
        else (Raise e, s', t)
    | done => done
    end.

Definition emit (ev : event) : M unit := fun s => (Ok tt, s, [ev]).

Definition lift {A} (r : result A) : M A := fun s => (r, s, []).

(** A user function of no further argument, and one taking [language=]. *)
Definition body (A : Type) : Type := W -> result A * W.

Record pyfunc (A : Type) : Type := mkFunc {
  func_name : string;
  func_body : body A
}.
Arguments func_name {A} p.
Arguments func_body {A} p.

Definition call {A} (f : body A) : M A :=
  fun s => let '(r, s') := f s in (r, s', [EvCall None]).

Definition call_with_language {A} (f : string -> body A) (lang : string)
    : M A :=
  fun s => let '(r, s') := f lang s in (r, s', [EvCall (Some lang)]).

(** [time.sleep(delay)] raises [OverflowError] for a length that does not
    fit, then [ValueError] for a negative length.  An accepted length is
    handed to the operating system, whose sleep is taken to return
    normally: signals, and the [OSError] with which some systems refuse
    a length that fits but lies within the machine's uptime of the 64-bit
    bound, are outside the model. *)
Definition sleep (delay : Q) : M unit :=
  if sleep_overflows delay
  then raise (mkExn OverflowErrorC
                "timestamp too large to convert to C _PyTime_t")
  else if (sleep_nanoseconds delay <? 0)%Z
       then raise (mkExn ValueErrorC "sleep length must be non-negative")
       else emit (EvSleep delay).

End Effects.

Arguments ret {W A} a.
Arguments raise {W A} e.
Arguments bind {W A B} m f.
Arguments try_except {W A} m handler.
Arguments emit {W} ev.
Arguments lift {W A} r.
Arguments call {W A} f.
Arguments call_with_language {W A} f lang.
Arguments sleep {W} delay.
Arguments mkFunc {W A} func_name func_body.
Arguments func_name {W A} p.
Arguments func_body {W A} p.

Notation "x <- m ;; k" := (bind m (fun x => k))
  (at level 61, m at next level, right associativity).
Notation "m ;;; k" := (bind m (fun _ => k))
  (at level 61, right associativity).

(** ** error_handler.py *)

Section ErrorHandling.

Variable W : Type.

(** The configuration in force (class [Config], which tests patch). *)
Variable cfg : config.

(** *** class ErrorHandler *)

Definition log_language_error (operation language : string) (error : exn)
    (fallback_used : option string) : M W unit :=
  if ENABLE_FALLBACK_LOGGING cfg
  then emit (EvLog (LogLanguageError operation language error
                      (match fallback_used with
                       | Some f => if String.eqb f "" then None else Some f
                       | None => None
                       end)))
  else ret tt.

Definition log_sentiment_error (operation : string) (error : exn)
    (fallback_used : string) : M W unit :=
  if ENABLE_FALLBACK_LOGGING cfg
  then emit (EvLog (LogSentimentError operation error fallback_used))
  else ret tt.

Definition log_ai_service_error (operation : string) (error : exn)
    (retry_count : Z) : M W unit :=
  let error_str := lower (str error) in
  let error_type :=
    if contains "429" (str error) || contains "quota" error_str
       || contains "rate limit" error_str
    then "Rate limit" else "AI service" in
  emit (EvLog (LogAIServiceError error_type operation error
                 (if (retry_count >? 0)%Z then Some retry_count else None))).

(** *** _is_retryable_error *)

Definition retryable_indicators : list string :=
  [ "timeout"; "connection"; "network"; "temporary"; "503"; "502"; "500";
    "rate limit"; "429"; "quota exceeded"; "service unavailable" ].

Definition non_retryable_indicators : list string :=
  [ "401"; "403"; "404"; "invalid api key"; "authentication"; "authorization";
    "bad request"; "400"; "not found" ].

(** [for indicator in indicators: if indicator in error_str: return b]
    followed by [rest]. *)
Fixpoint for_indicator (indicators : list string) (error_str : string)
    (b : bool) (rest : bool) : bool :=
  match indicators with
  | [] => rest
  | indicator :: more =>
      if contains indicator error_str then b
      else for_indicator more error_str b rest
  end.

Definition _is_retryable_error (error : exn) : bool :=
  let error_str := lower (str error) in
  for_indicator non_retryable_indicators error_str false
    (for_indicator retryable_indicators error_str true
       true).

(** *** with_sentiment_fallback (default [fallback_sentiment]: "neutral") *)

Definition with_sentiment_fallback (fallback_sentiment : string)
    (func : pyfunc W pyval) : M W pyval :=
  try_except (call (func_body func))
    (fun e =>
       if SENTIMENT_FALLBACK_ENABLED cfg
       then log_sentiment_error (func_name func) e fallback_sentiment ;;;
            ret (PyStr fallback_sentiment)
       else log_sentiment_error (func_name func) e "neutral" ;;;
            raise (mkExn SentimentAnalysisErrorC
                     ("Sentiment analysis failed in " ++ func_name func
                      ++ ": " ++ str e))).

(** *** with_retry *)

(** [x or default] on an optional integer and on an optional delay. *)
Definition or_int (x : option Z) (default : Z) : Z :=
  match x with
  | Some n => if (n =? 0)%Z then default else n
  | None => default
  end.

Definition or_delay (x : option Q) (default : Q) : Q :=
  match x with
  | Some d => if Qeq_bool d 0 then default else d
  | None => default
  end.

(** [str(last_exception)] *)
Definition str_opt (e : option exn) : string :=
  match e with Some e => str e | None => "None" end.

(** [range(n)] *)
Definition range (n : Z) : list Z := map Z.of_nat (seq 0 (Z.to_nat n)).

(** A delay that is not a whole number is a [float]; a whole one is read
    as an [int], as the configured [RETRY_DELAY = 1] is. *)
Definition is_whole (q : Q) : bool :=
  (Qnum q mod Zpos (Qden q) =? 0)%Z.

(** [base_delay * (2 ** attempt)].  The power is an [int]; multiplied by a
    [float] it is converted to a [float] first, which raises
    [OverflowError] from [2 ** 1024] on. *)
Definition backoff (base_delay : Q) (attempt : Z) : result Q :=
  if negb (is_whole base_delay) && (1024 <=? attempt)%Z
  then Raise (mkExn OverflowErrorC "int too large to convert to float")
  else Ok (base_delay * inject_Z (2 ^ attempt))%Q.

Section Retry.

Variable A : Type.
Variables (max_attempts : Z) (base_delay : Q) (exponential_backoff : bool).
Variable func : pyfunc W A.

(** The [for attempt in range(max_attempts)] loop and the [raise] after
    it; [last_exception] is the local variable of the wrapper. *)
Fixpoint retry_attempts (attempts : list Z) (last_exception : option exn)
    : M W A :=
  match attempts with
  | [] =>
      raise (mkExn AIServiceErrorC
               ("All retry attempts failed in " ++ func_name func ++ ": "
                ++ str_opt last_exception))
  | attempt :: rest =>
      fl <- try_except
              (v <- call (func_body func) ;; ret (Returned v))
              (fun e =>
                 if negb (_is_retryable_error e) then raise e
                 else
                   (if (attempt <? max_attempts - 1)%Z
                    then
                      delay <- lift (if exponential_backoff
                                     then backoff base_delay attempt
                                     else Ok base_delay) ;;
                      log_ai_service_error (func_name func) e (attempt + 1) ;;;
                      emit (EvLog (LogRetrying (func_name func) delay
                                     (attempt + 1) max_attempts)) ;;;
                      sleep delay
                    else
                      log_ai_service_error (func_name func) e (attempt + 1)) ;;;
                   ret (Continue e)) ;;
      match fl with
      | Returned v => ret v
      | Continue e => retry_attempts rest (Some e)
      end
  end.

End Retry.

Definition with_retry {A} (max_attempts : option Z) (base_delay : option Q)
    (exponential_backoff : bool) (func : pyfunc W A) : M W A :=
  let max_attempts := or_int max_attempts (MAX_RETRY_ATTEMPTS cfg) in
  let base_delay := or_delay base_delay (RETRY_DELAY cfg) in
  retry_attempts A max_attempts base_delay exponential_backoff func
    (range max_attempts) None.

(** *** class FallbackManager *)

(** [x in chain] *)
Definition in_list (x : string) (chain : list string) : bool :=
  existsb (String.eqb x) chain.

Definition get_language_fallback_chain (requested_language : pyval)
    : result (list string) :=
  let chain : list string := [] in
  match
    (if LanguageService.validate_language requested_language
     then match py_lower requested_language with
          | Ok l => Ok (chain ++ [l])%list
          | Raise e => Raise e
          end
     else Ok chain)
  with
  | Raise e => Raise e
  | Ok chain =>
      let default_lang := LanguageService.get_default_language in
      if negb (in_list default_lang chain)
      then Ok (chain ++ [default_lang])%list
      else Ok chain
  end.

Definition get_sentiment_fallback : string := "neutral".

(** [sentences[:2]] *)
Definition first_two (sentences : list string) : list string :=
  firstn 2 sentences.

Definition create_fallback_summary (article_text : string) (max_length : Z)
    : string :=
  if String.eqb article_text "" || (len (strip article_text) =? 0)%Z
  then "No content available for summary."
  else
    let article_text := strip article_text in
    if (len article_text <=? max_length)%Z then article_text
    else
      let sentences := split_period_space article_text in
      let truncated := strip (slice_to article_text max_length) ++ "..." in
      if (Z.of_nat (List.length sentences) >=? 2)%Z
      then
        let summary := join ". " (first_two sentences) ++ "." in
        if (len summary <=? max_length)%Z then summary else truncated
      else truncated.

(** *** handle_language_operation *)

Section LanguageOperation.

Variable A : Type.
Variable operation_name : string.
Variable operation_func : string -> body W A.

(** The [for lang in fallback_chain] loop and the [raise] after it.
    [fallback_chain[-1]] is read inside the loop only, where the list is
    not empty. *)
Fixpoint try_languages (fallback_chain todo : list string) : M W A :=
  match todo with
  | [] =>
      raise (mkExn LanguageErrorC
               ("No valid languages in fallback chain for " ++ operation_name))
  | lang :: rest =>
      fl <- try_except
              (v <- call_with_language operation_func lang ;; ret (Returned v))
              (fun e =>
                 log_language_error operation_name lang e None ;;;
                 if String.eqb lang (last fallback_chain "")
                 then raise (mkExn LanguageErrorC
                               ("All language fallbacks failed for "
                                ++ operation_name ++ ": " ++ str e))
                 else ret (Continue tt)) ;;
      match fl with
      | Returned v => ret v
      | Continue _ => try_languages fallback_chain rest
      end
  end.

Definition handle_language_operation (language : pyval) : M W A :=
  fallback_chain <- lift (get_language_fallback_chain language) ;;
  try_languages fallback_chain fallback_chain.

End LanguageOperation.

(** *** handle_sentiment_operation *)

Definition handle_sentiment_operation (operation_name : string)
    (operation_func : body W pyval) : M W pyval :=
  try_except (call operation_func)
    (fun e =>
       if SENTIMENT_FALLBACK_ENABLED cfg
       then
         let fallback := get_sentiment_fallback in
         log_sentiment_error operation_name e fallback ;;;
         ret (PyStr fallback)
       else
         log_sentiment_error operation_name e "neutral" ;;;
         raise (mkExn SentimentAnalysisErrorC
                  ("Sentiment analysis failed for " ++ operation_name
                   ++ ": " ++ str e))).

End ErrorHandling.

Arguments log_language_error {W} cfg operation language error fallback_used.
Arguments log_sentiment_error {W} cfg operation error fallback_used.
Arguments log_ai_service_error {W} operation error retry_count.
Arguments with_sentiment_fallback {W} cfg fallback_sentiment func.
Arguments retry_attempts {W A} max_attempts base_delay exponential_backoff
  func attempts last_exception.
Arguments with_retry {W} cfg {A} max_attempts base_delay exponential_backoff
  func.
Arguments try_languages {W} cfg {A} operation_name operation_func
  fallback_chain todo.
Arguments handle_language_operation {W} cfg {A} operation_name operation_func
  language.
Arguments handle_sentiment_operation {W} cfg operation_name operation_func.

(** ** A method decorated with [with_retry] *)

(** The per-language methods of the services are decorated with
    [with_retry] and then passed to [handle_language_operation].  The
    events of the decorated method (invocations of the undecorated one,
    sleeps, log records) are kept in the state, beside the world. *)
Definition with_retry_method {W A : Type} (cfg : config)
    (max_attempts : option Z) (base_delay : option Q)
    (exponential_backoff : bool) (method : string -> pyfunc W A)
    : string -> body (W * list event) A :=
  fun language s =>
    let '(r, w', t) :=
      with_retry cfg max_attempts base_delay exponential_backoff
        (method language) (fst s) in
    (r, (w', (snd s ++ t)%list)).

(** ** Records of the module loggers *)

(** What [logger.info] and [logger.warning] write in the functions below.
    These records are kept in the state, beside the world of the user
    functions. *)
Inductive module_record : Type :=
| InfoLanguageFallback (original : pyval) (target func_name : string)
| WarnRateLimit (operation title_start : string).

Definition logged (W : Type) : Type := (W * list module_record)%type.

Definition logger_write {W : Type} (r : module_record) : M (logged W) unit :=
  fun s => (Ok tt, (fst s, (snd s ++ [r])%list), []).

(** A user function, which does not touch the log. *)
Definition on_world {W A : Type} (f : body W A) : body (logged W) A :=
  fun s => let '(r, w') := f (fst s) in (r, (w', snd s)).

(** ** error_handler.py: with_language_fallback *)

(** The [str] that [get_fallback_language] returns (it returns one on
    every input). *)
Definition fallback_code (v : pyval) : string :=
  match LanguageService.get_fallback_language v with
  | Ok (PyStr l) => l
  | _ => LanguageService.DEFAULT_LANGUAGE
  end.

(** [s == v] for a [str] [s] *)
Definition str_eq (s : string) (v : pyval) : bool :=
  match v with
  | PyStr x => String.eqb s x
  | _ => false
  end.

(** [a or b] *)
Definition py_or (a b : pyval) : pyval := if truthy a then a else b.

(** [kwargs.get(key)] *)
Definition kwargs_get (kwargs : list (string * pyval)) (key : string) : pyval :=
  match LanguageService.dict_get kwargs key with
  | Some v => v
  | None => PyNone
  end.

(** [key in kwargs] *)
Definition dict_mem (kwargs : list (string * pyval)) (key : string) : bool :=
  match LanguageService.dict_get kwargs key with
  | Some _ => true
  | None => false
  end.

(** [kwargs[key] = v] *)
Fixpoint dict_set (kwargs : list (string * pyval)) (key : string) (v : pyval)
    : list (string * pyval) :=
  match kwargs with
  | [] => [(key, v)]
  | (k, x) :: rest =>
      if String.eqb k key then (k, v) :: rest
      else (k, x) :: dict_set rest key v
  end.

(** [args[i] = v] on the list made from the tuple, for [i] in range *)
Fixpoint list_set (args : list pyval) (i : nat) (v : pyval) : list pyval :=
  match args, i with
  | [], _ => []
  | _ :: rest, O => v :: rest
  | x :: rest, S i => x :: list_set rest i v
  end.

Section LanguageFallback.

Variables W A : Type.
Variable cfg : config.

(** A function called with the positional arguments [args] and the
    keyword arguments [kwargs]. *)
Record argfunc : Type := mkArgFunc {
  arg_name : string;
  arg_body : list pyval -> list (string * pyval) -> body W A
}.

(** The two branches that write the language into the arguments. *)
Definition set_language_argument (args : list pyval)
    (kwargs : list (string * pyval)) (lang : string)
    : list pyval * list (string * pyval) :=
  if dict_mem kwargs "language"
  then (args, dict_set kwargs "language" (PyStr lang))
  else if (Z.of_nat (List.length args) >? 2)%Z
       then (list_set args 2 (PyStr lang), kwargs)
       else (args, kwargs).

(** The wrapper; the decorator's own argument [fallback_language] is not
    read by it. *)
Definition with_language_fallback (fallback_language : option string)
    (func : argfunc) (args : list pyval) (kwargs : list (string * pyval))
    : M (logged W) A :=
  let language :=
    py_or (kwargs_get kwargs "language")
          (if (Z.of_nat (List.length args) >? 2)%Z
           then nth 2 args PyNone else PyNone) in
  let language :=
    if negb (truthy language)
    then PyStr LanguageService.get_default_language else language in
  let target_language := fallback_code language in
  let original_language := language in
  let '(args, kwargs) := set_language_argument args kwargs target_language in
  try_except
    ((if negb (str_eq target_language original_language)
         && ENABLE_FALLBACK_LOGGING cfg
      then logger_write (InfoLanguageFallback original_language
                           target_language (arg_name func))
      else ret tt) ;;;
     call (on_world (arg_body func args kwargs)))
    (fun e =>
       if negb (String.eqb target_language LanguageService.get_default_language)
          && LANGUAGE_FALLBACK_ENABLED cfg
       then
         log_language_error cfg (arg_name func) target_language e
           (Some LanguageService.get_default_language) ;;;
         let '(args, kwargs) :=
           set_language_argument args kwargs
             LanguageService.get_default_language in
         try_except (call (on_world (arg_body func args kwargs)))
           (fun fallback_error =>
              log_language_error cfg (arg_name func)
                LanguageService.get_default_language fallback_error None ;;;
              raise (mkExn LanguageErrorC
                       ("All language fallbacks failed in " ++ arg_name func
                        ++ ": " ++ str fallback_error)))
       else
         log_language_error cfg (arg_name func) target_language e None ;;;
         raise (mkExn LanguageErrorC
                  ("Language operation failed in " ++ arg_name func
                   ++ ": " ++ str e))).

End LanguageFallback.

Arguments mkArgFunc {W A} arg_name arg_body.
Arguments arg_name {W A} a.
Arguments arg_body {W A} a.
Arguments with_language_fallback {W A} cfg fallback_language func args kwargs.

(** ** news_service.py: generate_summary_with_sentiment *)

Module NewsService.

(** The settings of class [Config] the summary functions read. *)
Record ai_settings : Type := mkAI {
  AI_SUMMARY_MIN_LENGTH : Z;
  USE_AI_SUMMARY : bool
}.

(** The dict the summary functions return. *)
Record summary_dict : Type := mkSummary {
  summary : string;
  sentiment : string;
  language : pyval
}.

Section Summary.

Variable W : Type.
Variable cfg : config.
Variable ai : ai_settings.

(** [self._generate_summary_with_sentiment_for_language], with the
    article and the title already passed. *)
Variable for_language : string -> body W summary_dict.

(** The [except Exception as e] clause of
    [generate_summary_with_sentiment]. *)
Definition final_fallback (article_text title : string) (language : pyval)
    (e : exn) : M (logged W) summary_dict :=
  target_language <-
    lift (LanguageService.get_fallback_language language) ;;
  (if contains "429" (str e) || contains "quota" (lower (str e))
   then
     log_ai_service_error "generate_summary_with_sentiment" e 0 ;;;
     logger_write (WarnRateLimit "generate_summary_with_sentiment"
                     (slice_to title 50))
   else
     log_language_error cfg "generate_summary_with_sentiment"
       (fallback_code language) e None) ;;;
  ret {| summary := create_fallback_summary article_text 200;
         sentiment := get_sentiment_fallback;
         language := target_language |}.

Definition generate_summary_with_sentiment (article_text title : string)
    (language : pyval) : M (logged W) summary_dict :=
  try_except
    (if (len article_text <? AI_SUMMARY_MIN_LENGTH ai)%Z
        || negb (USE_AI_SUMMARY ai)
     then
       target <- lift (LanguageService.get_fallback_language language) ;;
       ret {| summary := create_fallback_summary article_text 200;
              sentiment := get_sentiment_fallback;
              language := target |}
     else
       handle_language_operation cfg "generate_summary_with_sentiment"
         (fun lang => on_world (for_language lang)) language)
    (final_fallback article_text title language).

End Summary.

End NewsService.

(** ** tts_service.py: the language of class TTSService *)

Module TTSService.

(** The attributes of the service. *)
Record service : Type := mkService {
  default_language : pyval;
  slow : bool
}.

(** [Config.TTS_LANGUAGE] and [Config.TTS_SLOW] *)
Definition TTS_LANGUAGE : string := "en".
Definition TTS_SLOW : bool := false.

(** [__init__]: the value [get_fallback_language] returns is kept. *)
Definition init (language : pyval) (slow : option bool) : result service :=
  let default_language :=
    py_or (py_or language (PyStr TTS_LANGUAGE))
          (PyStr LanguageService.get_default_language) in
  let slow := match slow with Some b => b | None => TTS_SLOW end in
  match LanguageService.get_fallback_language default_language with
  | Ok default_language => Ok (mkService default_language slow)
  | Raise e => Raise e
  end.

Definition set_language (self : service) (language : pyval) : result service :=
  match LanguageService.get_fallback_language language with
  | Ok validated_language => Ok (mkService validated_language (slow self))
  | Raise e => Raise e
  end.

Definition _get_target_language (self : service) (language : pyval)
    : result pyval :=
  if truthy language then LanguageService.get_fallback_language language
  else Ok (default_language self).

Definition _get_tts_language_code (language : pyval)
    : LanguageService.keyed string :=
  match LanguageService.get_tts_code language with
  | LanguageService.Value (Some tts_code) =>
      if negb (String.eqb tts_code "") then LanguageService.Value tts_code
      else LanguageService.Value LanguageService.get_default_language
  | LanguageService.Value None =>
      LanguageService.Value LanguageService.get_default_language
  | LanguageService.KeyError key => LanguageService.KeyError key
  end.

End TTSService.

(** * Vocabulary of the properties *)

(** [needle] occurs in [msg] up to letter case: some substring of [msg]
    lowercases to [needle]. *)
Definition occurs_ci (needle msg : string) : Prop :=
  exists a m b, msg = a ++ m ++ b /\ lower m = needle.

(** Every character of [s] is whitespace ([s] may be empty). *)
Definition whitespace_only (s : string) : Prop :=
  Forall (fun c => is_space c = true) (list_ascii_of_string s).

(** The class of the error a computation ends with, if it raises. *)
Definition raised_class {W A : Type} (out : result A * W * list event)
    : option exn_class :=
  match fst (fst out) with
  | Raise e => Some (exn_cls e)
  | Ok _ => None
  end.

(** A string that is empty or starts with a character that is not
    whitespace. *)
Definition no_leading_space (s : string) : Prop :=
  match s with
  | EmptyString => True
  | String c _ => is_space c = false
  end.

(** The events of a trace that are not log records. *)
Definition is_log (ev : event) : bool :=
  match ev with EvLog _ => true | _ => false end.

Definition without_logs (t : list event) : list event :=
  filter (fun ev => negb (is_log ev)) t.

(** The events [log_language_error] adds to the trace. *)
Definition language_error_log (cfg : config) (operation language : string)
    (error : exn) (fallback_used : option string) : list event :=
  if ENABLE_FALLBACK_LOGGING cfg
  then [EvLog (LogLanguageError operation language error fallback_used)]
  else [].

(** The language [with_language_fallback] reads from the arguments: the
    keyword [language] when it is truthy, else the third positional
    argument when it is truthy, else the default language. *)
Definition effective_language (args : list pyval)
    (kwargs : list (string * pyval)) : pyval :=
  let language :=
    py_or (kwargs_get kwargs "language")
          (if (Z.of_nat (List.length args) >? 2)%Z
           then nth 2 args PyNone else PyNone) in
  if negb (truthy language)
  then PyStr LanguageService.get_default_language else language.

(** The log after the [logger.info] of [with_language_fallback]. *)
Definition fallback_info_log (cfg : config) (func_name : string)
    (language : pyval) (log : list module_record) : list module_record :=
  if negb (str_eq (fallback_code language) language)
     && ENABLE_FALLBACK_LOGGING cfg
  then (log ++ [InfoLanguageFallback language (fallback_code language)
                  func_name])%list
  else log.

(** [time.sleep] takes the delay: its count of nanoseconds fits and is not
    negative. *)
Definition sleep_accepts (delay : Q) : bool :=
  negb (sleep_overflows delay) && (0 <=? sleep_nanoseconds delay)%Z.

(** The error of [time.sleep] for a delay it does not take. *)
Definition sleep_error (delay : Q) : exn :=
  if sleep_overflows delay
  then mkExn OverflowErrorC "timestamp too large to convert to C _PyTime_t"
  else mkExn ValueErrorC "sleep length must be non-negative".

Section RetryVocabulary.

Context {W A : Type}.
Variables (max_attempts : Z) (base_delay : Q) (exponential_backoff : bool).
Variable func : pyfunc W A.

(** The delay slept after failed attempt [attempt]. *)
Definition retry_delay (attempt : Z) : Q :=
  if exponential_backoff then (base_delay * inject_Z (2 ^ attempt))%Q
  else base_delay.

(** The delay after failed attempt [attempt] can be computed and
    [time.sleep] takes it. *)
Definition delay_accepted (attempt : Z) : bool :=
  match (if exponential_backoff then backoff base_delay attempt
         else Ok base_delay) with
  | Ok delay => sleep_accepts delay
  | Raise _ => false
  end.

(** State after [k] invocations of the function. *)
Fixpoint after_calls (k : nat) (s : W) : W :=
  match k with
  | O => s
  | S k => after_calls k (snd (func_body func s))
  end.

(** The error raised by invocation number [k] (from 0), if it raises. *)
Definition error_at (k : nat) (s : W) : option exn :=
  match fst (func_body func (after_calls k s)) with
  | Raise e => Some e
  | Ok _ => None
  end.

(** The loop of the wrapper built from these arguments. *)
Definition retry_loop : list Z -> option exn -> M W A :=
  retry_attempts max_attempts base_delay exponential_backoff func.

(** The function raises a retryable error whenever it is invoked. *)
Definition always_retryable_failure : Prop :=
  forall s, exists e s',
    func_body func s = (Raise e, s') /\
    is_Exception e = true /\ _is_retryable_error e = true.

End RetryVocabulary.

Section LanguageOperationVocabulary.

Context {W A : Type}.
Variable operation_func : string -> body W A.

(** The operation raises an exception for each of [langs] in turn,
    taking the state from [s] to [s']. *)
Inductive fails_through : list string -> W -> W -> Prop :=
| fails_nil (s : W) : fails_through [] s s
| fails_cons (lang : string) (rest : list string) (s s1 s' : W) (e : exn) :
    operation_func lang s = (Raise e, s1) ->
    is_Exception e = true ->
    fails_through rest s1 s' ->
    fails_through (lang :: rest) s s'.

End LanguageOperationVocabulary.

(** ** Operations used in the examples *)

(** A function that raises "Connection timeout" at every invocation and
    counts its invocations in the state. *)
Definition always_timeout : pyfunc nat pyval :=
  mkFunc "fetch"
    (fun calls => (Raise (mkExn ExceptionC "Connection timeout"), S calls)).

(** A function that raises "401 Unauthorized" at every invocation. *)
Definition always_unauthorized : pyfunc nat pyval :=
  mkFunc "fetch"
    (fun calls => (Raise (mkExn ExceptionC "401 Unauthorized"), S calls)).

(** The function of the unit test of the decorator: it fails with
    "Temporary failure" until its third invocation. *)
Definition fails_twice : pyfunc nat pyval :=
  mkFunc "failing_function"
    (fun calls =>
       if (S calls <? 3)%nat
       then (Raise (mkExn ExceptionC "Temporary failure"), S calls)
       else (Ok (PyStr "success"), S calls)).

(** A function that reads its keyword argument [language] and works in
    English only. *)
Definition english_only_kw : argfunc nat string :=
  mkArgFunc "summarize"
    (fun args kwargs calls =>
       if str_eq "en" (kwargs_get kwargs "language")
       then (Ok "summary in en", S calls)
       else (Raise (mkExn ExceptionC "no model"), S calls)).

(** An operation that raises "model unavailable". *)
Definition failing_sentiment : pyfunc nat pyval :=
  mkFunc "analyze_sentiment"
    (fun calls => (Raise (mkExn ValueErrorC "model unavailable"), S calls)).

(** An operation that works in English only. *)
Definition english_only (lang : string) : body nat string :=
  fun calls =>
    if String.eqb lang "en" then (Ok ("summary in " ++ lang), S calls)
    else (Raise (mkExn ExceptionC ("no model for " ++ lang)), S calls).

(** An operation that fails in every language. *)
Definition no_language (lang : string) : body nat string :=
  fun calls => (Raise (mkExn ExceptionC ("no model for " ++ lang)), S calls).

(** * Properties *)

(** ** The cases of the repository's unit tests *)

Example validate_language_padded :
  LanguageService.validate_language (PyStr " hi ") = true.
Proof. reflexivity. Qed.

Example strip_example : strip "  a b  " = "a b".
Proof. reflexivity. Qed.

Example chain_hi : get_language_fallback_chain (PyStr "hi") = Ok ["hi"; "en"].
Proof. reflexivity. Qed.

Example chain_invalid :
  get_language_fallback_chain (PyStr "invalid") = Ok ["en"].
Proof. reflexivity. Qed.

Example chain_en : get_language_fallback_chain (PyStr "en") = Ok ["en"].
Proof. reflexivity. Qed.

Example summary_short :
  create_fallback_summary "Short article." 200 = "Short article.".
Proof. reflexivity. Qed.

Example summary_two_sentences :
  create_fallback_summary
    "First sentence. Second sentence. Third sentence should not be included. Fourth sentence definitely not included."
    100 = "First sentence. Second sentence.".
Proof. reflexivity. Qed.

Example summary_empty :
  create_fallback_summary "" 200 = "No content available for summary.".
Proof. reflexivity. Qed.

Example retryable_401 :
  _is_retryable_error (mkExn ExceptionC "401 Unauthorized") = false.
Proof. reflexivity. Qed.

Example retryable_temporary :
  _is_retryable_error (mkExn ExceptionC "Temporary failure") = true.
Proof. reflexivity. Qed.

(** ** Strings *)

Lemma prefix_iff (n h : string) :
  String.prefix n h = true <-> exists b, h = n ++ b.
Proof.
  revert h; induction n as [|c n IH]; intros h.
  - split; [intros _; now exists h | now destruct h].
  - destruct h as [|d h]; simpl.
    + split; [discriminate | intros [b Hb]; discriminate].
    + destruct (ascii_dec c d) as [->|Hcd].
      * rewrite IH. split; intros [b Hb]; exists b.
        -- now rewrite Hb.
        -- now injection Hb.
      * split; [discriminate | intros [b Hb]; injection Hb; congruence].
Qed.

Lemma contains_eq (n h : string) :
  contains n h =
  if String.prefix n h then true
  else match h with
       | EmptyString => false
       | String _ r => contains n r
       end.
Proof. destruct h; reflexivity. Qed.

Lemma contains_iff (n h : string) :
  contains n h = true <-> exists a b, h = a ++ n ++ b.
Proof.
  induction h as [|d h IH]; rewrite contains_eq;
    destruct (String.prefix n _) eqn:P.
  - split; [intros _ | reflexivity].
    apply prefix_iff in P. destruct P as [b Hb]. now exists "", b.
  - split; [discriminate|]. intros (a & b & Hab).
    destruct a; simpl in Hab; [|discriminate].
    assert (String.prefix n "" = true) by (apply prefix_iff; now exists b).
    congruence.
  - split; [intros _ | reflexivity].
    apply prefix_iff in P. destruct P as [b Hb]. now exists "", b.
  - rewrite IH. split.
    + intros (a & b & Hab). exists (String d a), b. simpl. now rewrite Hab.
    + intros (a & b & Hab). destruct a as [|c a]; simpl in Hab.
      * assert (String.prefix n (String d h) = true)
          by (apply prefix_iff; now exists b).
        congruence.
      * injection Hab as _ Hh. now exists a, b.
Qed.

Lemma lower_app (a b : string) : lower (a ++ b) = lower a ++ lower b.
Proof. induction a as [|c a IH]; simpl; [reflexivity | now rewrite IH]. Qed.

Lemma lower_split (m a b : string) :
  lower m = a ++ b ->
  exists a' b', m = a' ++ b' /\ lower a' = a /\ lower b' = b.
Proof.
  revert m; induction a as [|c a IH]; intros m H; simpl in H.
  - now exists "", m.
  - destruct m as [|d m]; simpl in H; [discriminate|].
    injection H as Hc Hm. destruct (IH _ Hm) as (a' & b' & -> & Ha & Hb).
    exists (String d a'), b'. simpl. now rewrite Hc, Ha.
Qed.

Lemma contains_lower_iff (needle msg : string) :
  contains needle (lower msg) = true <-> occurs_ci needle msg.
Proof.
  rewrite contains_iff. split.
  - intros (a & b & H). apply lower_split in H.
    destruct H as (a' & r & -> & Ha & Hr). apply lower_split in Hr.
    destruct Hr as (m & b' & -> & Hm & Hb). now exists a', m, b'.
  - intros (a & m & b & -> & Hm). exists (lower a), (lower b).
    now rewrite !lower_app, Hm.
Qed.

(** ** The indicator loops *)

Lemma for_indicator_hit (inds : list string) (s : string) (b rest : bool) :
  (exists i, In i inds /\ contains i s = true) ->
  for_indicator inds s b rest = b.
Proof.
  induction inds as [|j inds IH]; simpl; intros (i & Hi & Hc).
  - contradiction.
  - destruct (contains j s) eqn:E; [reflexivity|].
    apply IH. destruct Hi as [->|Hi]; [congruence | eauto].
Qed.

Lemma for_indicator_miss (inds : list string) (s : string) (b rest : bool) :
  (forall i, In i inds -> contains i s = false) ->
  for_indicator inds s b rest = rest.
Proof.
  induction inds as [|j inds IH]; simpl; intros H; [reflexivity|].
  rewrite (H j) by now left. apply IH. intros i Hi. apply H. now right.
Qed.

(** ** LanguageService *)

Import LanguageService.

Lemma validate_language_non_str (v : pyval) :
  isinstance_str v = false -> validate_language v = false.
Proof.
  intros H. unfold validate_language. rewrite H. simpl.
  now rewrite orb_true_r.
Qed.

(** [get_fallback_language] returns a [str] on every input. *)
Lemma get_fallback_language_total (v : pyval) :
  exists l, get_fallback_language v = Ok (PyStr l).
Proof.
  unfold get_fallback_language. destruct (validate_language v) eqn:E.
  - destruct v; try (rewrite validate_language_non_str in E by reflexivity;
                     discriminate).
    simpl. eauto.
  - eauto.
Qed.

Lemma get_fallback_language_unsupported (v : pyval) :
  validate_language v = false -> get_fallback_language v = Ok (PyStr "en").
Proof. intros H. unfold get_fallback_language. now rewrite H. Qed.

Lemma get_fallback_language_supported (s : string) :
  validate_language (PyStr s) = true ->
  get_fallback_language (PyStr s) = Ok (PyStr (lower s)).
Proof. intros H. unfold get_fallback_language. now rewrite H. Qed.

(** C1: [get_fallback_language] is total and maps an unsupported input to
    "en", but on a supported code written with surrounding whitespace it
    returns the lowercased text with the whitespace kept, where
    [normalize_language_code] returns the trimmed code: on " hi " it
    returns " hi ", not "hi". *)
Theorem get_fallback_language_keeps_padding :
  validate_language (PyStr " hi ") = true /\
  normalize_language_code (PyStr " hi ") = Some "hi" /\
  get_fallback_language (PyStr " hi ") = Ok (PyStr " hi ") /\
  get_fallback_language (PyStr " hi ") <> Ok (PyStr "hi").
Proof. repeat split; try reflexivity. discriminate. Qed.

(** ** _is_retryable_error *)

(** C3: an error whose message contains a fatal indicator, in any letter
    case, is not retryable, whatever else the message contains. *)
Theorem fatal_indicator_not_retryable (error : exn) (indicator : string) :
  In indicator
     [ "401"; "403"; "404"; "400"; "invalid api key"; "authentication";
       "authorization"; "bad request"; "not found" ] ->
  occurs_ci indicator (str error) ->
  _is_retryable_error error = false.
Proof.
  intros Hin Hocc. unfold _is_retryable_error.
  apply for_indicator_hit. exists indicator. split.
  - unfold non_retryable_indicators. simpl in Hin |- *. intuition.
  - now apply contains_lower_iff.
Qed.

Lemma fatal_indicator_not_retryable_witness :
  _is_retryable_error
    (mkExn ExceptionC "Connection TIMEOUT: 401 Unauthorized") = false.
Proof.
  apply (fatal_indicator_not_retryable _ "401").
  - simpl. auto.
  - apply contains_lower_iff. reflexivity.
Defined.

(** C2, as stated, fails: a message with a transient indicator and a
    fatal one is not retryable. *)
Lemma transient_indicator_with_fatal_not_retryable :
  occurs_ci "timeout" (str (mkExn ExceptionC "Timeout: 404 page")) /\
  _is_retryable_error (mkExn ExceptionC "Timeout: 404 page") = false.
Proof.
  split; [apply contains_lower_iff|]; reflexivity.
Qed.

(** C2, amended: an error whose message contains a transient indicator, in
    any letter case, and none of the fatal indicators, is retryable. *)
Theorem transient_indicator_retryable (error : exn) (indicator : string) :
  In indicator
     [ "timeout"; "connection"; "network"; "503"; "502"; "500"; "429";
       "rate limit"; "quota exceeded"; "service unavailable" ] ->
  occurs_ci indicator (str error) ->
  (forall fatal, In fatal non_retryable_indicators ->
                 ~ occurs_ci fatal (str error)) ->
  _is_retryable_error error = true.
Proof.
  intros Hin Hocc Hfatal. unfold _is_retryable_error.
  rewrite for_indicator_miss.
  - apply for_indicator_hit. exists indicator. split.
    + unfold retryable_indicators. simpl in Hin |- *. intuition.
    + now apply contains_lower_iff.
  - intros f Hf. destruct (contains f (lower (str error))) eqn:E;
      [|reflexivity].
    apply contains_lower_iff in E. now apply Hfatal in E.
Qed.

Lemma transient_indicator_retryable_witness :
  _is_retryable_error (mkExn ExceptionC "HTTP 503 Service Unavailable") = true.
Proof.
  apply (transient_indicator_retryable _ "503").
  - simpl. auto.
  - apply contains_lower_iff. reflexivity.
  - intros f Hf E. apply contains_lower_iff in E.
    unfold non_retryable_indicators in Hf. simpl in Hf.
    repeat (destruct Hf as [<-|Hf]; [vm_compute in E; discriminate|]).
    contradiction.
Defined.

(** ** get_language_fallback_chain *)

Lemma get_language_fallback_chain_eq (v : pyval) :
  get_language_fallback_chain v =
  Ok (match v with
      | PyStr s =>
          if validate_language v
          then if String.eqb "en" (lower s) then ["en"] else [lower s; "en"]
          else ["en"]
      | _ => ["en"]
      end).
Proof.
  unfold get_language_fallback_chain.
  destruct v; try (rewrite validate_language_non_str by reflexivity;
                   reflexivity).
  destruct (validate_language (PyStr s)); [|reflexivity].
  cbn -[String.eqb lower]. rewrite orb_false_r.
  unfold get_default_language, DEFAULT_LANGUAGE.
  destruct (String.eqb_spec "en" (lower s)) as [<-|_]; reflexivity.
Qed.

(** The two shapes of a chain. *)
Lemma fallback_chain_cases (v : pyval) :
  get_language_fallback_chain v = Ok ["en"] \/
  exists l, l <> "en" /\ get_language_fallback_chain v = Ok [l; "en"].
Proof.
  rewrite get_language_fallback_chain_eq.
  destruct v; auto. destruct (validate_language _); auto.
  destruct (String.eqb_spec "en" (lower s)) as [E|E]; auto.
  right. exists (lower s). split; [congruence | reflexivity].
Qed.

(** The chain in terms of the lowercased text of the request: it is not
    empty, ends in "en" and has one or two entries, different as strings;
    an accepted text whose lowercased form is not "en" gives that form and
    "en", every other input gives [["en"]]. *)
Lemma fallback_chain_shape (requested : pyval) :
  exists chain,
    get_language_fallback_chain requested = Ok chain /\
    chain <> [] /\ NoDup chain /\ last chain "" = "en" /\
    (List.length chain = 1 \/ List.length chain = 2)%nat /\
    (forall s, requested = PyStr s -> validate_language requested = true ->
               lower s <> "en" -> chain = [lower s; "en"]) /\
    (forall s, requested = PyStr s -> lower s = "en" -> chain = ["en"]) /\
    (validate_language requested = false -> chain = ["en"]) /\
    (isinstance_str requested = false -> chain = ["en"]) /\
    (requested = PyStr "" -> chain = ["en"]).
Proof.
  assert (shape : forall chain,
            get_language_fallback_chain requested = Ok chain ->
            chain <> [] /\ NoDup chain /\ last chain "" = "en" /\
            (List.length chain = 1 \/ List.length chain = 2)%nat).
  { intros chain H.
    destruct (fallback_chain_cases requested) as [E|(l & Hl & E)];
      rewrite E in H; injection H as <-.
    - repeat split; [discriminate | | auto].
      constructor; [intros [] | constructor].
    - repeat split; [discriminate | | auto].
      constructor; [intros [?|[]]; congruence|].
      constructor; [intros [] | constructor]. }
  rewrite get_language_fallback_chain_eq in *.
  eexists. split; [reflexivity|].
  destruct (shape _ eq_refl) as (H1 & H2 & H3 & H4).
  repeat split; auto.
  - intros s -> Hv Hne. rewrite Hv.
    destruct (String.eqb_spec "en" (lower s)); congruence.
  - intros s -> He. rewrite He. simpl.
    destruct (validate_language _); reflexivity.
  - intros Hv. destruct requested; auto. now rewrite Hv.
  - intros Hs. destruct requested; auto. discriminate.
  - intros ->. reflexivity.
Qed.

(** C6: the chain of the default code is not always [["en"]].  Written
    with surrounding whitespace the default code is accepted by
    [validate_language], which trims it, but the chain takes the
    lowercased text untrimmed and then finds "en" missing: on " EN ",
    which [normalize_language_code] turns into "en", the chain is
    [[" en "; "en"]], the default language twice. *)
Theorem fallback_chain_padded_default_twice :
  validate_language (PyStr " EN ") = true /\
  normalize_language_code (PyStr " EN ") = Some "en" /\
  get_language_fallback_chain (PyStr " EN ") = Ok [" en "; "en"] /\
  get_language_fallback_chain (PyStr " EN ") <> Ok ["en"].
Proof. repeat split; try reflexivity. discriminate. Qed.

(** ** Traces *)

Lemma count_calls_app (t t' : list event) :
  count_calls (t ++ t') = (count_calls t + count_calls t')%nat.
Proof. unfold count_calls. now rewrite filter_app, length_app. Qed.

Lemma sleeps_app (t t' : list event) :
  sleeps (t ++ t') = (sleeps t ++ sleeps t')%list.
Proof.
  induction t as [|ev t IH]; [reflexivity|].
  destruct ev; simpl; now rewrite IH.
Qed.

Lemma called_languages_app (t t' : list event) :
  called_languages (t ++ t') =
  (called_languages t ++ called_languages t')%list.
Proof.
  induction t as [|ev t IH]; [reflexivity|].
  destruct ev as [[l|]| |]; simpl; now rewrite IH.
Qed.

(** ** with_retry *)

(** The lengths that pass the checks of [time.sleep]: whole seconds up to
    9223372036, and no negative length, however short. *)
Example sleep_bounds :
  sleep_accepts (9223372036 # 1) = true /\
  sleep_overflows (9223372037 # 1) = true /\
  sleep_overflows (10000000000 # 1) = true /\
  sleep_overflows (-10000000000 # 1) = true /\
  sleep_overflows (-9223372037 # 1) = true /\
  sleep_error (-9223372036 # 1) =
    mkExn ValueErrorC "sleep length must be non-negative" /\
  sleep_accepts (-1 # 1000000000000) = false /\
  sleep_error (-1 # 1000000000000) =
    mkExn ValueErrorC "sleep length must be non-negative" /\
  sleep_accepts 0 = true.
Proof. repeat split. Qed.

Section RetryProperties.

Context {W A : Type}.
Variables (max_attempts : Z) (base_delay : Q) (exponential_backoff : bool).
Variable func : pyfunc W A.

Local Abbreviation loop :=
  (retry_loop max_attempts base_delay exponential_backoff func).
Local Abbreviation delay_after :=
  (retry_delay base_delay exponential_backoff).

Lemma backoff_accepted (attempt : Z) :
  delay_accepted base_delay exponential_backoff attempt = true ->
  (if exponential_backoff then backoff base_delay attempt else Ok base_delay)
    = Ok (delay_after attempt) /\
  sleep_accepts (delay_after attempt) = true.
Proof.
  unfold delay_accepted, retry_delay, backoff.
  destruct exponential_backoff; [|now split].
  destruct (negb (is_whole base_delay) && (1024 <=? attempt)%Z);
    [discriminate | now split].
Qed.

Lemma sleep_accepted (delay : Q) (s : W) :
  sleep_accepts delay = true -> sleep delay s = (Ok tt, s, [EvSleep delay]).
Proof.
  unfold sleep_accepts, sleep. intros H.
  apply andb_true_iff in H as [Ho Hn]. apply negb_true_iff in Ho.
  apply Z.leb_le, Z.ltb_ge in Hn. now rewrite Ho, Hn.
Qed.

Lemma sleep_refused (delay : Q) (s : W) :
  sleep_accepts delay = false ->
  sleep delay s = (Raise (sleep_error delay), s, []).
Proof.
  unfold sleep_accepts, sleep, sleep_error. intros H.
  destruct (sleep_overflows delay); [reflexivity|].
  cbn in H. apply Z.leb_gt, Z.ltb_lt in H. now rewrite H.
Qed.

(** One failed attempt with a retryable error: the call, the log records,
    the sleep unless the attempt is the last, then the rest of the loop. *)
Lemma retry_attempts_retry (attempt : Z) (rest : list Z)
    (last_exception : option exn) (s s' : W) (e : exn) :
  func_body func s = (Raise e, s') ->
  is_Exception e = true ->
  _is_retryable_error e = true ->
  ((attempt <? max_attempts - 1)%Z = true ->
   delay_accepted base_delay exponential_backoff attempt = true) ->
  exists logged,
    loop (attempt :: rest) last_exception s =
    (let '(r, s2, t) := loop rest (Some e) s' in
     (r, s2, EvCall None :: logged ++ t)%list) /\
    count_calls logged = 0%nat /\
    sleeps logged =
      if (attempt <? max_attempts - 1)%Z then [delay_after attempt] else [].
Proof.
  intros Hbody Hexc Hretry Hdelay.
  unfold retry_loop. cbn [retry_attempts]. unfold bind at 1. unfold try_except.
  unfold bind at 1. unfold call. rewrite Hbody, Hexc, Hretry.
  cbn [negb].
  destruct (attempt <? max_attempts - 1)%Z.
  - destruct (backoff_accepted attempt (Hdelay eq_refl)) as [-> Hsleep].
    unfold bind, lift. cbn -[sleep]. rewrite (sleep_accepted _ _ Hsleep).
    destruct (retry_attempts _ _ _ _ rest (Some e) s') as [[r s2] t].
    eexists [_; _; _]. split; [reflexivity|]. split; reflexivity.
  - cbn. destruct (retry_attempts _ _ _ _ rest (Some e) s') as [[r s2] t].
    eexists [_]. split; [reflexivity|]. split; reflexivity.
Qed.

(** A failed attempt whose delay cannot be computed or slept ends the
    loop with the error of the delay. *)
Lemma retry_attempts_refused (attempt : Z) (rest : list Z)
    (last_exception : option exn) (s s' : W) (e : exn) :
  func_body func s = (Raise e, s') ->
  is_Exception e = true ->
  _is_retryable_error e = true ->
  (attempt <? max_attempts - 1)%Z = true ->
  delay_accepted base_delay exponential_backoff attempt = false ->
  exists logged,
    loop (attempt :: rest) last_exception s =
    (Raise (match (if exponential_backoff then backoff base_delay attempt
                   else Ok base_delay) with
            | Ok delay => sleep_error delay
            | Raise err => err
            end), s', EvCall None :: logged) /\
    count_calls logged = 0%nat /\ sleeps logged = [].
Proof.
  intros Hbody Hexc Hretry Hlt Hdelay.
  unfold retry_loop. cbn [retry_attempts]. unfold bind at 1. unfold try_except.
  unfold bind at 1. unfold call. rewrite Hbody, Hexc, Hretry, Hlt.
  cbn [negb]. unfold delay_accepted in Hdelay.
  destruct (if exponential_backoff then backoff base_delay attempt
            else Ok base_delay) as [delay|err].
  - unfold bind, lift. cbn -[sleep]. rewrite (sleep_refused _ _ Hdelay).
    eexists [_; _]. split; [reflexivity|]. split; reflexivity.
  - cbn. exists []. split; [reflexivity|]. split; reflexivity.
Qed.

(** A failed attempt with an error that is not retryable, or that
    [except Exception] does not catch, ends the loop at once. *)
Lemma retry_attempts_fatal (attempt : Z) (rest : list Z)
    (last_exception : option exn) (s s' : W) (e : exn) :
  func_body func s = (Raise e, s') ->
  _is_retryable_error e = false ->
  loop (attempt :: rest) last_exception s = (Raise e, s', [EvCall None]).
Proof.
  intros Hbody Hfatal.
  unfold retry_loop. cbn [retry_attempts]. unfold bind at 1. unfold try_except.
  unfold bind at 1. unfold call. rewrite Hbody, Hfatal.
  destruct (is_Exception e); reflexivity.
Qed.

Lemma retry_attempts_uncaught (attempt : Z) (rest : list Z)
    (last_exception : option exn) (s s' : W) (e : exn) :
  func_body func s = (Raise e, s') ->
  is_Exception e = false ->
  loop (attempt :: rest) last_exception s = (Raise e, s', [EvCall None]).
Proof.
  intros Hbody Hexc.
  unfold retry_loop. cbn [retry_attempts]. unfold bind at 1. unfold try_except.
  unfold bind at 1. unfold call. now rewrite Hbody, Hexc.
Qed.

Lemma retry_attempts_success (attempt : Z) (rest : list Z)
    (last_exception : option exn) (s s' : W) (v : A) :
  func_body func s = (Ok v, s') ->
  loop (attempt :: rest) last_exception s = (Ok v, s', [EvCall None]).
Proof.
  intros Hbody.
  unfold retry_loop. cbn [retry_attempts]. unfold bind at 1. unfold try_except.
  unfold bind at 1. unfold call. rewrite Hbody. reflexivity.
Qed.

(** The outcomes of one iteration. *)
Lemma retry_attempts_cases (attempt : Z) (rest : list Z)
    (last_exception : option exn) (s : W) :
  (exists r s', loop (attempt :: rest) last_exception s
                = (r, s', [EvCall None])) \/
  (exists r s' logged,
      loop (attempt :: rest) last_exception s
      = (r, s', EvCall None :: logged) /\
      count_calls logged = 0%nat /\ sleeps logged = []) \/
  (exists e s' logged,
      loop (attempt :: rest) last_exception s =
      (let '(r, s2, t) := loop rest (Some e) s' in
       (r, s2, EvCall None :: logged ++ t)%list) /\
      count_calls logged = 0%nat /\
      sleeps logged =
        if (attempt <? max_attempts - 1)%Z then [delay_after attempt]
        else []).
Proof.
  destruct (func_body func s) as [[v|e] s'] eqn:Hbody.
  { left. rewrite (retry_attempts_success _ _ _ _ _ _ Hbody). eauto. }
  destruct (_is_retryable_error e) eqn:Hretry.
  2:{ left. rewrite (retry_attempts_fatal _ _ _ _ _ _ Hbody Hretry). eauto. }
  destruct (is_Exception e) eqn:Hexc.
  2:{ left. rewrite (retry_attempts_uncaught _ _ _ _ _ _ Hbody Hexc). eauto. }
  destruct (attempt <? max_attempts - 1)%Z eqn:Hlt.
  - destruct (delay_accepted base_delay exponential_backoff attempt) eqn:Hd.
    + right. right.
      destruct (retry_attempts_retry attempt rest last_exception s s' e
                  Hbody Hexc Hretry (fun _ => Hd)) as (logged & H).
      rewrite Hlt in H. eauto.
    + right. left.
      destruct (retry_attempts_refused attempt rest last_exception s s' e
                  Hbody Hexc Hretry Hlt Hd) as (logged & H).
      eauto.
  - right. right.
    destruct (retry_attempts_retry attempt rest last_exception s s' e
                Hbody Hexc Hretry) as (logged & H).
    { rewrite Hlt. discriminate. }
    rewrite Hlt in H. eauto.
Qed.

Lemma retry_delay_pos (attempt : Z) :
  (0 < base_delay)%Q -> (0 <= attempt)%Z -> (0 < delay_after attempt)%Q.
Proof.
  intros Hb Ha. unfold retry_delay. destruct exponential_backoff; [|exact Hb].
  apply Qmult_lt_0_compat; [exact Hb|].
  change 0%Q with (inject_Z 0). rewrite <- Zlt_Qlt.
  apply Z.pow_pos_nonneg; lia.
Qed.

(** When every invocation fails with a retryable error and every delay is
    taken, the loop invokes the function once per attempt and raises
    [AIServiceError] with the text of the last error ([last_exception]
    when there is no attempt). *)
Lemma retry_loop_exhausted (attempts : list Z) :
  always_retryable_failure func ->
  Forall (fun a => (a <? max_attempts - 1)%Z = true ->
                   delay_accepted base_delay exponential_backoff a = true)
    attempts ->
  forall (last_exception : option exn) (s : W),
  exists t,
    loop attempts last_exception s =
    (Raise (mkExn AIServiceErrorC
              ("All retry attempts failed in " ++ func_name func ++ ": "
               ++ str_opt (match List.length attempts with
                           | O => last_exception
                           | S k => error_at func k s
                           end))),
     after_calls func (List.length attempts) s, t) /\
    count_calls t = List.length attempts /\
    sleeps t =
      map delay_after (filter (fun a => a <? max_attempts - 1)%Z attempts).
Proof.
  intros Hfail Hacc.
  induction Hacc as [|attempt rest Ha _ IH]; intros last_exception s.
  - exists []. repeat split.
  - destruct (Hfail s) as (e & s' & Hbody & Hexc & Hretry).
    destruct (retry_attempts_retry attempt rest last_exception s s' e
                Hbody Hexc Hretry Ha) as (logged & Hstep & Hcalls & Hsleeps).
    destruct (IH (Some e) s') as (t & Hrest & Hcount & Hlen).
    assert (Hstate : after_calls func (List.length rest) s' =
                     after_calls func (List.length (attempt :: rest)) s).
    { cbn [List.length after_calls]. now rewrite Hbody. }
    assert (Hlast : match List.length rest with
                    | O => Some e
                    | S k => error_at func k s'
                    end = error_at func (List.length rest) s).
    { unfold error_at. destruct (List.length rest) as [|k];
        cbn [after_calls]; now rewrite Hbody. }
    rewrite Hstep, Hrest, Hstate, Hlast.
    eexists. split; [|split].
    + reflexivity.
    + change (EvCall None :: logged ++ t)%list
        with ([EvCall None] ++ logged ++ t)%list.
      rewrite !count_calls_app, Hcalls, Hcount. reflexivity.
    + change (EvCall None :: logged ++ t)%list
        with ([EvCall None] ++ logged ++ t)%list.
      rewrite !sleeps_app, Hsleeps, Hlen. cbn [filter].
      destruct (attempt <? max_attempts - 1)%Z; reflexivity.
Qed.

(** Every iteration starts by invoking the function. *)
Lemma retry_loop_calls_first (attempt : Z) (rest : list Z)
    (last_exception : option exn) (s : W) :
  exists r s' t,
    loop (attempt :: rest) last_exception s = (r, s', EvCall None :: t).
Proof.
  destruct (retry_attempts_cases attempt rest last_exception s)
    as [(r & s' & H) | [(r & s' & logged & H & _) | (e & s' & logged & H & _)]].
  - eauto.
  - eauto.
  - rewrite H. destruct (loop rest (Some e) s') as [[r s2] t]. eauto.
Qed.

(** With a positive base delay, every delay slept is positive. *)
Lemma retry_loop_sleeps_pos (attempts : list Z) :
  (0 < base_delay)%Q ->
  Forall (fun a => 0 <= a)%Z attempts ->
  forall (last_exception : option exn) (s : W),
    Forall (fun d => 0 < d)%Q
      (sleeps (snd (loop attempts last_exception s))).
Proof.
  intros Hbd Hpos.
  induction Hpos as [|attempt rest Ha _ IH]; intros last_exception s.
  - constructor.
  - destruct (retry_attempts_cases attempt rest last_exception s)
      as [(r & s' & H) | [(r & s' & logged & H & _ & Hsl)
                         | (e & s' & logged & H & _ & Hsl)]].
    + rewrite H. constructor.
    + rewrite H. cbn [snd].
      change (EvCall None :: logged)%list with ([EvCall None] ++ logged)%list.
      rewrite sleeps_app, Hsl. constructor.
    + rewrite H. specialize (IH (Some e) s').
      destruct (loop rest (Some e) s') as [[r s2] t].
      cbn [snd] in *.
      change (EvCall None :: logged ++ t)%list
        with ([EvCall None] ++ logged ++ t)%list.
      rewrite !sleeps_app, Hsl. cbn [sleeps app].
      apply Forall_app. split; [|exact IH].
      destruct (attempt <? max_attempts - 1)%Z; constructor;
        [now apply retry_delay_pos | constructor].
Qed.

End RetryProperties.

Lemma range_nonneg (n : Z) : Forall (fun a => 0 <= a)%Z (range n).
Proof.
  unfold range. apply Forall_forall. intros a Ha.
  apply in_map_iff in Ha. destruct Ha as (k & <- & _). lia.
Qed.

Lemma range_length (n : Z) : List.length (range n) = Z.to_nat n.
Proof. unfold range. now rewrite length_map, length_seq. Qed.

Lemma range_cons (n : Z) :
  (1 <= n)%Z -> exists rest, range n = 0%Z :: rest.
Proof.
  intros H. unfold range. destruct (Z.to_nat n) as [|k] eqn:E; [lia|].
  cbn. eauto.
Qed.

Lemma range_in (n : Z) (k : nat) :
  (Z.of_nat k < n)%Z -> In (Z.of_nat k) (range n).
Proof.
  intros H. unfold range. apply in_map, in_seq. lia.
Qed.

(** A test passed by the attempts before the last bears on every attempt
    after which the loop sleeps. *)
Lemma range_before_last (P : Z -> bool) (n : Z) :
  forallb P (range (n - 1)) = true ->
  Forall (fun a => (a <? n - 1)%Z = true -> P a = true) (range n).
Proof.
  intros H. apply Forall_forall. intros a Ha Hlt.
  apply in_map_iff in Ha. destruct Ha as (k & <- & _).
  apply Z.ltb_lt in Hlt.
  exact (proj1 (forallb_forall P _) H _ (range_in _ _ Hlt)).
Qed.




Example with_retry_three_attempts :
  exists t,
    with_retry Config (Some 3%Z) None true always_timeout 0%nat =
      (Raise (mkExn AIServiceErrorC
                "All retry attempts failed in fetch: Connection timeout"),
       3%nat, t) /\
    count_calls t = 3%nat /\ sleeps t = [1%Q; 2%Q].
Proof. eexists. vm_compute. repeat split. Qed.

(** C5: when the first invocation raises an error that is not retryable,
    the wrapper with [max_attempts >= 1] invokes the function once, does
    not sleep, and raises that same error. *)
Theorem with_retry_fatal_propagates {W A : Type} (cfg : config) (n : Z)
    (base_delay : option Q) (exponential_backoff : bool)
    (func : pyfunc W A) (s s' : W) (e : exn) :
  (1 <= n)%Z ->
  func_body func s = (Raise e, s') ->
  _is_retryable_error e = false ->
  exists t,
    with_retry cfg (Some n) base_delay exponential_backoff func s =
      (Raise e, s', t) /\
    count_calls t = 1%nat /\ sleeps t = [].
Proof.
  intros Hn Hbody Hfatal. exists [EvCall None].
  unfold with_retry. replace (or_int (Some n) _) with n
    by (unfold or_int; destruct (Z.eqb_spec n 0); [lia | reflexivity]).
  destruct (range_cons n Hn) as (rest & ->).
  split; [|split; reflexivity].
  exact (retry_attempts_fatal n _ exponential_backoff func 0 rest None
           s s' e Hbody Hfatal).
Qed.

Lemma with_retry_fatal_propagates_witness :
  exists t,
    with_retry Config (Some 3%Z) (Some (1 # 10)) true always_unauthorized
      0%nat =
      (Raise (mkExn ExceptionC "401 Unauthorized"), 1%nat, t) /\
    count_calls t = 1%nat /\ sleeps t = [].
Proof.
  apply (with_retry_fatal_propagates Config 3 (Some (1 # 10)) true
           always_unauthorized 0%nat 1%nat
           (mkExn ExceptionC "401 Unauthorized")).
  - lia.
  - reflexivity.
  - reflexivity.
Defined.

(** C10: [max_attempts=0] and [base_delay=0] are replaced by the
    configured 3 and 1; with [max_attempts=0] the function is invoked at
    least once, and with [base_delay=0] every delay slept is positive. *)
Theorem with_retry_zero_means_default {W A : Type}
    (exponential_backoff : bool) (func : pyfunc W A) (s : W) :
  or_int (Some 0%Z) (MAX_RETRY_ATTEMPTS Config) = 3%Z /\
  or_delay (Some 0%Q) (RETRY_DELAY Config) = 1%Q /\
  with_retry Config (Some 0%Z) (Some 0%Q) exponential_backoff func s =
    with_retry Config None None exponential_backoff func s /\
  (forall base_delay,
      (1 <= count_calls
              (snd (with_retry Config (Some 0%Z) base_delay
                      exponential_backoff func s)))%nat) /\
  (forall max_attempts,
      Forall (fun d => 0 < d)%Q
        (sleeps (snd (with_retry Config max_attempts (Some 0%Q)
                        exponential_backoff func s)))).
Proof.
  split; [reflexivity|]. split; [reflexivity|]. split; [reflexivity|].
  split.
  - intros base_delay. unfold with_retry.
    change (or_int (Some 0%Z) (MAX_RETRY_ATTEMPTS Config)) with 3%Z.
    change (range 3) with [0%Z; 1%Z; 2%Z].
    destruct (retry_loop_calls_first 3
                (or_delay base_delay (RETRY_DELAY Config))
                exponential_backoff func 0 [1%Z; 2%Z] None s)
      as (r & s' & t & Hrun).
    unfold retry_loop in Hrun. rewrite Hrun. cbn [snd].
    change (EvCall None :: t) with ([EvCall None] ++ t)%list.
    rewrite count_calls_app. cbn. lia.
  - intros max_attempts. unfold with_retry.
    change (or_delay (Some 0%Q) (RETRY_DELAY Config)) with 1%Q.
    apply (retry_loop_sleeps_pos _ 1%Q exponential_backoff func).
    + reflexivity.
    + apply range_nonneg.
Qed.

Example with_retry_zero_arguments_run :
  exists t,
    with_retry Config (Some 0%Z) (Some 0%Q) true always_timeout 0%nat =
      (Raise (mkExn AIServiceErrorC
                "All retry attempts failed in fetch: Connection timeout"),
       3%nat, t) /\
    count_calls t = 3%nat /\ sleeps t = [1%Q; 2%Q].
Proof. eexists. vm_compute. repeat split. Qed.

(** ** Sentiment wrappers *)

(** C8: when the operation raises an exception, both sentiment wrappers
    return "neutral" if the sentiment fallback is enabled (as it is in
    [Config]) and raise [SentimentAnalysisError] if it is disabled; they
    raise [SentimentAnalysisError] in no other case; and a value the
    operation returns is passed on unchanged. *)
Theorem sentiment_wrappers_fallback {W : Type} (cfg : config)
    (func : pyfunc W pyval) (s : W) :
  let by_handler :=
    handle_sentiment_operation cfg (func_name func) (func_body func) s in
  let by_decorator := with_sentiment_fallback cfg "neutral" func s in
  SENTIMENT_FALLBACK_ENABLED Config = true /\
  (forall e s', func_body func s = (Raise e, s') -> is_Exception e = true ->
     SENTIMENT_FALLBACK_ENABLED cfg = true ->
     exists t, by_handler = (Ok (PyStr "neutral"), s', t) /\
               by_decorator = (Ok (PyStr "neutral"), s', t)) /\
  (raised_class by_handler = Some SentimentAnalysisErrorC <->
   SENTIMENT_FALLBACK_ENABLED cfg = false /\
   exists e s', func_body func s = (Raise e, s') /\ is_Exception e = true) /\
  (raised_class by_decorator = Some SentimentAnalysisErrorC <->
   SENTIMENT_FALLBACK_ENABLED cfg = false /\
   exists e s', func_body func s = (Raise e, s') /\ is_Exception e = true) /\
  (forall v s', func_body func s = (Ok v, s') ->
     by_handler = (Ok v, s', [EvCall None]) /\
     by_decorator = (Ok v, s', [EvCall None])).
Proof.
  cbv zeta.
  unfold handle_sentiment_operation, with_sentiment_fallback, try_except, call,
    raised_class, log_sentiment_error, get_sentiment_fallback.
  split; [reflexivity|].
  destruct (func_body func s) as [[v|e] s0] eqn:Hbody.
  - split; [discriminate|]. cbn.
    split; [|split];
      try (split; [discriminate
                  | intros (_ & ? & ? & ? & _); discriminate]).
    intros v' s' [= <- <-]. split; reflexivity.
  - destruct (is_Exception e) eqn:Hexc.
    + destruct (SENTIMENT_FALLBACK_ENABLED cfg) eqn:Hcfg.
      * split; [|split; [|split]].
        -- intros e' s' [= <- <-] _ _.
           destruct (ENABLE_FALLBACK_LOGGING cfg); cbn; eauto.
        -- destruct (ENABLE_FALLBACK_LOGGING cfg); cbn;
             (split; [discriminate | intros [? _]; discriminate]).
        -- destruct (ENABLE_FALLBACK_LOGGING cfg); cbn;
             (split; [discriminate | intros [? _]; discriminate]).
        -- discriminate.
      * split; [|split; [|split]].
        -- discriminate.
        -- destruct (ENABLE_FALLBACK_LOGGING cfg); cbn;
             (split; [intros _; split; eauto | reflexivity]).
        -- destruct (ENABLE_FALLBACK_LOGGING cfg); cbn;
             (split; [intros _; split; eauto | reflexivity]).
        -- discriminate.
    + split; [|split; [|split]].
      * intros e' s' [= <- <-]. congruence.
      * cbn. split.
        -- intros [= Hc]. unfold is_Exception in Hexc. rewrite Hc in Hexc.
           discriminate.
        -- intros (_ & e' & s' & [= <- <-] & He). congruence.
      * cbn. split.
        -- intros [= Hc]. unfold is_Exception in Hexc. rewrite Hc in Hexc.
           discriminate.
        -- intros (_ & e' & s' & [= <- <-] & He). congruence.
      * discriminate.
Qed.

Lemma sentiment_wrappers_fallback_witness :
  exists t,
    handle_sentiment_operation Config "analyze_sentiment"
      (func_body failing_sentiment) 0%nat = (Ok (PyStr "neutral"), 1%nat, t) /\
    with_sentiment_fallback Config "neutral" failing_sentiment 0%nat =
      (Ok (PyStr "neutral"), 1%nat, t).
Proof.
  pose proof (sentiment_wrappers_fallback Config failing_sentiment 0%nat) as H.
  cbv zeta in H. destruct H as (_ & Hfallback & _).
  apply (Hfallback (mkExn ValueErrorC "model unavailable") 1%nat);
    reflexivity.
Defined.

Example sentiment_fallback_enabled_run :
  handle_sentiment_operation Config "analyze_sentiment"
    (func_body failing_sentiment) 0%nat =
  (Ok (PyStr "neutral"), 1%nat,
   [EvCall None;
    EvLog (LogSentimentError "analyze_sentiment"
             (mkExn ValueErrorC "model unavailable") "neutral")]).
Proof. reflexivity. Qed.

Example sentiment_fallback_disabled_run :
  with_sentiment_fallback (mkConfig 3 1 true false true) "neutral"
    failing_sentiment 0%nat =
  (Raise (mkExn SentimentAnalysisErrorC
            "Sentiment analysis failed in analyze_sentiment: model unavailable"),
   1%nat,
   [EvCall None;
    EvLog (LogSentimentError "analyze_sentiment"
             (mkExn ValueErrorC "model unavailable") "neutral")]).
Proof. reflexivity. Qed.

(** ** handle_language_operation *)

Section LanguageOperationProperties.

Context {W A : Type}.
Variable cfg : config.
Variable operation_name : string.
Variable operation_func : string -> body W A.

(** A failure on a language that is not the last of the chain is logged
    and the loop goes on. *)
Lemma try_languages_skip (chain rest : list string) (lang : string)
    (s s1 : W) (e : exn) :
  operation_func lang s = (Raise e, s1) ->
  is_Exception e = true ->
  lang <> last chain "" ->
  exists logged,
    try_languages cfg operation_name operation_func chain (lang :: rest) s =
    (let '(r, s2, t) :=
       try_languages cfg operation_name operation_func chain rest s1 in
     (r, s2, EvCall (Some lang) :: logged ++ t)%list) /\
    called_languages logged = [].
Proof.
  intros Hbody Hexc Hlast.
  cbn [try_languages]. unfold bind at 1. unfold try_except.
  unfold bind at 1. unfold call_with_language. rewrite Hbody, Hexc.
  destruct (String.eqb_spec lang (last chain "")) as [|_]; [contradiction|].
  unfold log_language_error.
  destruct (ENABLE_FALLBACK_LOGGING cfg); cbn;
    destruct (try_languages _ _ _ chain rest s1) as [[r s2] t].
  - exists [EvLog (LogLanguageError operation_name lang e None)].
    split; reflexivity.
  - exists []. split; reflexivity.
Qed.

Lemma try_languages_success (chain rest : list string) (lang : string)
    (s s1 : W) (v : A) :
  operation_func lang s = (Ok v, s1) ->
  try_languages cfg operation_name operation_func chain (lang :: rest) s =
  (Ok v, s1, [EvCall (Some lang)]).
Proof.
  intros Hbody.
  cbn [try_languages]. unfold bind at 1. unfold try_except.
  unfold bind at 1. unfold call_with_language. rewrite Hbody. reflexivity.
Qed.

(** A failure on the last language of the chain raises [LanguageError]. *)
Lemma try_languages_last (chain rest : list string) (lang : string)
    (s s1 : W) (e : exn) :
  operation_func lang s = (Raise e, s1) ->
  is_Exception e = true ->
  lang = last chain "" ->
  exists t,
    try_languages cfg operation_name operation_func chain (lang :: rest) s =
    (Raise (mkExn LanguageErrorC
              ("All language fallbacks failed for " ++ operation_name
               ++ ": " ++ str e)), s1, t) /\
    called_languages t = [lang].
Proof.
  intros Hbody Hexc Hlast.
  cbn [try_languages]. unfold bind at 1. unfold try_except.
  unfold bind at 1. unfold call_with_language. rewrite Hbody, Hexc.
  rewrite <- Hlast, String.eqb_refl. unfold log_language_error.
  destruct (ENABLE_FALLBACK_LOGGING cfg); cbn; eexists; split; reflexivity.
Qed.

(** After failures on [pre], none of them the last language of the chain,
    the loop is at the languages that follow. *)
Lemma try_languages_after_failures (chain pre todo : list string) (s s1 : W) :
  fails_through operation_func pre s s1 ->
  (forall l, In l pre -> l <> last chain "") ->
  exists logged,
    try_languages cfg operation_name operation_func chain (pre ++ todo) s =
    (let '(r, s2, t) :=
       try_languages cfg operation_name operation_func chain todo s1 in
     (r, s2, logged ++ t)%list) /\
    called_languages logged = pre.
Proof.
  intros Hfails. induction Hfails as [s|lang rest s s1 s' e Hbody Hexc _ IH];
    intros Hnotlast.
  - exists []. split; [|reflexivity]. cbn [app].
    now destruct (try_languages _ _ _ chain todo s) as [[r s2] t].
  - destruct IH as (logged & Hrest & Hcalled).
    { intros l Hl. apply Hnotlast. now right. }
    destruct (try_languages_skip chain (rest ++ todo) lang s s1 e Hbody Hexc)
      as (logged0 & Hstep & Hcalled0).
    { apply Hnotlast. now left. }
    exists (EvCall (Some lang) :: logged0 ++ logged)%list. split.
    + cbn [app]. rewrite Hstep, Hrest.
      destruct (try_languages _ _ _ chain todo s') as [[r s2] t].
      now rewrite <- app_assoc.
    + cbn [called_languages].
      now rewrite called_languages_app, Hcalled0, Hcalled.
Qed.

End LanguageOperationProperties.

Lemma last_app_cons (pre post : list string) (x d : string) :
  last (pre ++ x :: post) d = last (x :: post) d.
Proof.
  induction pre as [|p pre IH]; [reflexivity|].
  cbn [app]. rewrite <- IH. cbn [last].
  destruct (pre ++ x :: post)%list eqn:E; [|reflexivity].
  destruct pre; discriminate.
Qed.

Lemma last_in (post : list string) (x d : string) :
  In (last (x :: post) d) (x :: post).
Proof.
  revert x. induction post as [|y post IH]; intros x.
  - now left.
  - right. apply IH.
Qed.

Lemma NoDup_before_last (pre post : list string) (x : string) :
  NoDup (pre ++ x :: post) ->
  forall l, In l pre -> l <> last (pre ++ x :: post) "".
Proof.
  intros Hnd l Hl Heq.
  assert (Hin : In (last (pre ++ x :: post) "") (x :: post)).
  { rewrite last_app_cons. apply last_in. }
  rewrite <- Heq in Hin. clear Heq.
  induction pre as [|p pre IH]; [contradiction|].
  cbn in Hnd. inversion Hnd as [|? ? Hnotin Hnd']; subst.
  destruct Hl as [->|Hl].
  - apply Hnotin. apply in_or_app. now right.
  - now apply IH.
Qed.

Lemma fallback_chain_NoDup (v : pyval) (chain : list string) :
  get_language_fallback_chain v = Ok chain -> NoDup chain.
Proof.
  intros H. destruct (fallback_chain_cases v) as [E|(l & Hl & E)];
    rewrite E in H; injection H as <-.
  - constructor; [intros [] | constructor].
  - constructor; [intros [?|[]]; congruence|].
    constructor; [intros [] | constructor].
Qed.

Lemma handle_language_operation_eq {W A : Type} (cfg : config)
    (operation_name : string) (operation_func : string -> body W A)
    (language : pyval) (chain : list string) (s : W) :
  get_language_fallback_chain language = Ok chain ->
  handle_language_operation cfg operation_name operation_func language s =
  try_languages cfg operation_name operation_func chain chain s.
Proof.
  intros H. unfold handle_language_operation, bind, lift. rewrite H.
  now destruct (try_languages _ _ _ chain chain s) as [[r s2] t].
Qed.

(** C7: the operation is tried on the languages of the fallback chain in
    order.  If it fails on the languages [pre] and succeeds on the next
    one, that result is returned and the operation was invoked on [pre]
    and that language only; if it fails on every language of the chain,
    [LanguageError] is raised with the text of the last failure. *)
Theorem handle_language_operation_first_success {W A : Type} (cfg : config)
    (operation_name : string) (operation_func : string -> body W A)
    (language : pyval) (s : W) :
  exists chain,
    get_language_fallback_chain language = Ok chain /\
    (forall pre lang post s1 s2 v,
        chain = (pre ++ lang :: post)%list ->
        fails_through operation_func pre s s1 ->
        operation_func lang s1 = (Ok v, s2) ->
        exists t,
          handle_language_operation cfg operation_name operation_func
            language s = (Ok v, s2, t) /\
          called_languages t = (pre ++ [lang])%list) /\
    (forall pre lang s1 s2 e,
        chain = (pre ++ [lang])%list ->
        fails_through operation_func pre s s1 ->
        operation_func lang s1 = (Raise e, s2) ->
        is_Exception e = true ->
        exists t,
          handle_language_operation cfg operation_name operation_func
            language s =
          (Raise (mkExn LanguageErrorC
                    ("All language fallbacks failed for " ++ operation_name
                     ++ ": " ++ str e)), s2, t) /\
          called_languages t = chain).
Proof.
  destruct (get_language_fallback_chain language) as [chain|e0] eqn:Hchain.
  2:{ destruct (fallback_chain_cases language) as [E|(l & _ & E)];
        congruence. }
  exists chain. split; [reflexivity|].
  pose proof (fallback_chain_NoDup _ _ Hchain) as Hnd.
  rewrite (handle_language_operation_eq cfg operation_name operation_func
             language chain s Hchain).
  split.
  - intros pre lang post s1 s2 v Hsplit Hfails Hok.
    destruct (try_languages_after_failures cfg operation_name operation_func
                chain pre (lang :: post) s s1 Hfails)
      as (logged & Hrun & Hcalled).
    { rewrite Hsplit in *. now apply NoDup_before_last. }
    rewrite <- Hsplit in Hrun. rewrite Hrun.
    rewrite (try_languages_success cfg operation_name operation_func
               chain post lang s1 s2 v Hok).
    eexists. split; [reflexivity|].
    rewrite called_languages_app, Hcalled. reflexivity.
  - intros pre lang s1 s2 e Hsplit Hfails Hraise Hexc.
    destruct (try_languages_after_failures cfg operation_name operation_func
                chain pre [lang] s s1 Hfails) as (logged & Hrun & Hcalled).
    { rewrite Hsplit in *. now apply NoDup_before_last. }
    rewrite <- Hsplit in Hrun. rewrite Hrun.
    destruct (try_languages_last cfg operation_name operation_func
                chain [] lang s1 s2 e Hraise Hexc) as (t & Hlast & Hcalled').
    { rewrite Hsplit. now rewrite last_app_cons. }
    rewrite Hlast. eexists. split; [reflexivity|].
    rewrite called_languages_app, Hcalled, Hcalled'. now rewrite Hsplit.
Qed.

Lemma handle_language_operation_first_success_witness :
  exists t,
    handle_language_operation Config "summarize" english_only (PyStr "hi")
      0%nat = (Ok "summary in en", 2%nat, t) /\
    called_languages t = ["hi"; "en"].
Proof.
  destruct (handle_language_operation_first_success Config "summarize"
              english_only (PyStr "hi") 0%nat) as (chain & Hchain & Hsucc & _).
  apply (Hsucc ["hi"] "en" [] 1%nat 2%nat "summary in en").
  - vm_compute in Hchain. now injection Hchain as <-.
  - apply (fails_cons _ "hi" [] 0%nat 1%nat 1%nat
             (mkExn ExceptionC "no model for hi"));
      [reflexivity | reflexivity | constructor].
  - reflexivity.
Defined.

Example handle_language_operation_falls_back :
  handle_language_operation Config "summarize" english_only (PyStr "hi") 0%nat =
  (Ok "summary in en", 2%nat,
   [EvCall (Some "hi");
    EvLog (LogLanguageError "summarize" "hi"
             (mkExn ExceptionC "no model for hi") None);
    EvCall (Some "en")]).
Proof. reflexivity. Qed.

Example handle_language_operation_first_language :
  handle_language_operation Config "summarize" english_only (PyStr "en") 0%nat =
  (Ok "summary in en", 1%nat, [EvCall (Some "en")]).
Proof. reflexivity. Qed.

Example handle_language_operation_exhausted :
  handle_language_operation Config "summarize" no_language (PyStr "hi") 0%nat =
  (Raise (mkExn LanguageErrorC
            "All language fallbacks failed for summarize: no model for en"),
   2%nat,
   [EvCall (Some "hi");
    EvLog (LogLanguageError "summarize" "hi"
             (mkExn ExceptionC "no model for hi") None);
    EvCall (Some "en");
    EvLog (LogLanguageError "summarize" "en"
             (mkExn ExceptionC "no model for en") None)]).
Proof. reflexivity. Qed.

(** ** create_fallback_summary *)

Lemma append_assoc_string (a b c : string) : (a ++ b) ++ c = a ++ b ++ c.
Proof. induction a as [|x a IH]; simpl; [reflexivity | now rewrite IH]. Qed.

Lemma lstrip_empty_iff (s : string) : lstrip s = "" <-> whitespace_only s.
Proof.
  unfold whitespace_only. induction s as [|c s IH]; simpl.
  - split; [constructor | reflexivity].
  - destruct (is_space c) eqn:E.
    + rewrite IH. split; [now constructor|]. intros H. now inversion H.
    + split; [discriminate|]. intros H. inversion H. congruence.
Qed.

Lemma rstrip_empty_iff (s : string) : rstrip s = "" <-> whitespace_only s.
Proof.
  unfold whitespace_only. induction s as [|c s IH]; simpl.
  - split; [constructor | reflexivity].
  - destruct (rstrip s) as [|d r] eqn:R.
    + destruct (is_space c) eqn:E.
      * split; [intros _; constructor; [exact E | now apply IH] | reflexivity].
      * split; [discriminate|]. intros H. inversion H. congruence.
    + split; [discriminate|]. intros H. inversion H as [|? ? _ Hs].
      apply IH in Hs. discriminate.
Qed.

Lemma lstrip_whitespace_only (s : string) :
  whitespace_only (lstrip s) <-> whitespace_only s.
Proof.
  unfold whitespace_only. induction s as [|c s IH]; simpl; [reflexivity|].
  destruct (is_space c) eqn:E; [|reflexivity].
  rewrite IH. split; [now constructor|]. intros H. now inversion H.
Qed.

Lemma strip_empty_iff (s : string) : strip s = "" <-> whitespace_only s.
Proof.
  unfold strip. now rewrite rstrip_empty_iff, lstrip_whitespace_only.
Qed.

Lemma len_zero_iff (s : string) : (len s =? 0)%Z = true <-> s = "".
Proof.
  unfold len. rewrite Z.eqb_eq. destruct s; simpl; split;
    try reflexivity; try discriminate; lia.
Qed.

(** The test that opens [create_fallback_summary]. *)
Lemma no_content_iff (text : string) :
  String.eqb text "" || (len (strip text) =? 0)%Z = true <->
  whitespace_only text.
Proof.
  rewrite orb_true_iff, len_zero_iff, strip_empty_iff, String.eqb_eq.
  split; [|now right]. intros [->|H]; [constructor | exact H].
Qed.

Lemma take_substring (n : nat) (s : string) : take n s = substring 0 n s.
Proof.
  revert s; induction n as [|n IH]; intros [|c s]; simpl;
    try reflexivity. now rewrite IH.
Qed.

Lemma append_empty_r (a : string) : a ++ "" = a.
Proof. induction a as [|x a IH]; simpl; [reflexivity | now rewrite IH]. Qed.

Lemma split_period_space_from_eq (cur : string) (c d : ascii) (s : string) :
  split_period_space_from cur (String c (String d s)) =
  if (Ascii.eqb c "." && Ascii.eqb d " ")%bool
  then cur :: split_period_space_from "" s
  else split_period_space_from (cur ++ String c "") (String d s).
Proof. reflexivity. Qed.

(** A split has at least one fragment. *)
Lemma split_from_nonempty (s : string) :
  (forall cur, split_period_space_from cur s <> []) /\
  (forall c cur, split_period_space_from cur (String c s) <> []).
Proof.
  induction s as [|d s [IH1 IH2]].
  - split; intros; discriminate.
  - split; [intros cur; apply IH2|].
    intros c cur. rewrite split_period_space_from_eq.
    destruct (_ && _)%bool; [discriminate | apply IH2].
Qed.

(** Joining the fragments of a split with the separator gives the text
    back. *)
Lemma join_split_from (s : string) :
  (forall cur, join ". " (split_period_space_from cur s) = cur ++ s) /\
  (forall c cur, join ". " (split_period_space_from cur (String c s))
                 = cur ++ String c s).
Proof.
  induction s as [|d s [IH1 IH2]].
  - split; intros; cbn; [now rewrite append_empty_r | reflexivity].
  - split; [intros cur; apply IH2|].
    intros c cur. rewrite split_period_space_from_eq.
    destruct (Ascii.eqb_spec c ".") as [->|_]; cbn [andb].
    + destruct (Ascii.eqb_spec d " ") as [->|_].
      * specialize (IH1 ""). 
        destruct (split_period_space_from "" s) as [|p ps] eqn:E.
        -- now destruct (proj1 (split_from_nonempty s) "").
        -- cbn [join]. cbn [join] in IH1. now rewrite IH1.
      * rewrite IH2. now rewrite append_assoc_string.
    + rewrite IH2. now rewrite append_assoc_string.
Qed.

Lemma join_split (s : string) : join ". " (split_period_space s) = s.
Proof. exact (proj1 (join_split_from s) ""). Qed.

(** C9, as stated, fails: the truncated text is trimmed before the
    ellipsis is appended, so the result differs from the first
    [max_length] characters followed by "...". *)
Lemma create_fallback_summary_trims_truncation :
  ~ whitespace_only "ab cd" /\
  (3 < len (strip "ab cd"))%Z /\
  split_period_space (strip "ab cd") = ["ab cd"] /\
  substring 0 (Z.to_nat 3) (strip "ab cd") ++ "..." = "ab ..." /\
  create_fallback_summary "ab cd" 3 = "ab..." /\
  create_fallback_summary "ab cd" 3 <>
    substring 0 (Z.to_nat 3) (strip "ab cd") ++ "...".
Proof.
  split; [|repeat split; try reflexivity; discriminate].
  intros H. inversion H as [|? ? Hc _]. discriminate Hc.
Qed.

(** C9, amended: whitespace-only text gives the sentinel; text whose
    trimmed form fits is returned trimmed; longer text whose first two
    ". "-fragments, joined by ". " and closed by a period, fit is replaced
    by that join; otherwise the result is the slice
    [text[:max_length]] of the trimmed text (its first [max_length]
    characters when [max_length >= 0]), trimmed, followed by "...". *)
Theorem create_fallback_summary_cases (text : string) (max_length : Z) :
  let trimmed := strip text in
  let truncated := strip (slice_to trimmed max_length) ++ "..." in
  let summary := create_fallback_summary text max_length in
  (whitespace_only text -> summary = "No content available for summary.") /\
  (~ whitespace_only text -> (len trimmed <= max_length)%Z ->
   summary = trimmed) /\
  (~ whitespace_only text -> (max_length < len trimmed)%Z ->
   forall a b rest, split_period_space trimmed = a :: b :: rest ->
     (len (a ++ ". " ++ b ++ ".") <= max_length)%Z ->
     summary = a ++ ". " ++ b ++ ".") /\
  (~ whitespace_only text -> (max_length < len trimmed)%Z ->
   forall a b rest, split_period_space trimmed = a :: b :: rest ->
     (max_length < len (a ++ ". " ++ b ++ "."))%Z ->
     summary = truncated) /\
  (~ whitespace_only text -> (max_length < len trimmed)%Z ->
   (List.length (split_period_space trimmed) < 2)%nat ->
   summary = truncated) /\
  ((0 <= max_length)%Z ->
   slice_to trimmed max_length = substring 0 (Z.to_nat max_length) trimmed).
Proof.
  cbv zeta. unfold create_fallback_summary.
  destruct (String.eqb text "" || (len (strip text) =? 0)%Z) eqn:Hws.
  - apply no_content_iff in Hws.
    repeat split; try reflexivity; try contradiction.
    intros H. unfold slice_to.
    destruct (Z.ltb_spec max_length 0); [lia | apply take_substring].
  - assert (Hnws : ~ whitespace_only text).
    { intros H. apply no_content_iff in H. congruence. }
    split; [contradiction|].
    destruct (Z.leb_spec (len (strip text)) max_length) as [Hfit|Hlong].
    + split; [reflexivity|]. repeat split; try lia.
      intros H. unfold slice_to.
      destruct (Z.ltb_spec max_length 0); [lia | apply take_substring].
    + split; [lia|].
      split; [|split; [|split]].
      * intros _ _ a b rest Hsplit Hjoin. rewrite Hsplit.
        cbn [List.length first_two firstn join].
        rewrite !append_assoc_string.
        destruct (Z.geb_spec (Z.of_nat (S (S (List.length rest)))) 2);
          [|lia].
        destruct (Z.leb_spec (len (a ++ ". " ++ b ++ ".")) max_length);
          [reflexivity | lia].
      * intros _ _ a b rest Hsplit Hjoin. rewrite Hsplit.
        cbn [List.length first_two firstn join].
        rewrite !append_assoc_string.
        destruct (Z.geb_spec (Z.of_nat (S (S (List.length rest)))) 2);
          [|reflexivity].
        destruct (Z.leb_spec (len (a ++ ". " ++ b ++ ".")) max_length);
          [lia | reflexivity].
      * intros _ _ Hshort.
        destruct (Z.geb_spec
                    (Z.of_nat (List.length (split_period_space (strip text))))
                    2); [lia | reflexivity].
      * intros H. unfold slice_to.
        destruct (Z.ltb_spec max_length 0); [lia | apply take_substring].
Qed.

Lemma create_fallback_summary_cases_witness :
  create_fallback_summary "One. Two. Three and more text  " 12 = "One. Two.".
Proof.
  pose proof (create_fallback_summary_cases
                "One. Two. Three and more text  " 12) as H.
  cbv zeta in H. destruct H as (_ & _ & Hjoin & _).
  apply (Hjoin) with (a := "One") (b := "Two")
                     (rest := ["Three and more text"]).
  - intros Hws. inversion Hws as [|? ? Hc _]. discriminate Hc.
  - reflexivity.
  - reflexivity.
  - vm_compute. discriminate.
Defined.

Example summary_truncated :
  create_fallback_summary "Breaking news from the city" 10 = "Breaking n...".
Proof. reflexivity. Qed.

Example summary_negative_length :
  create_fallback_summary "ab cd. ef. gh" (-3) = "ab cd. ef....".
Proof. reflexivity. Qed.

(** * Further properties of the language catalog *)

(** ** [lower] and [strip] *)

Lemma lower_char_idem (c : ascii) : lower_char (lower_char c) = lower_char c.
Proof. destruct c as [[] [] [] [] [] [] [] []]; reflexivity. Qed.

Lemma is_space_lower_char (c : ascii) : is_space (lower_char c) = is_space c.
Proof. destruct c as [[] [] [] [] [] [] [] []]; reflexivity. Qed.

Lemma lower_idem (s : string) : lower (lower s) = lower s.
Proof.
  induction s as [|c s IH]; simpl; [reflexivity|].
  now rewrite lower_char_idem, IH.
Qed.

Lemma lower_lstrip (s : string) : lower (lstrip s) = lstrip (lower s).
Proof.
  induction s as [|c s IH]; simpl; [reflexivity|].
  rewrite is_space_lower_char. destruct (is_space c); [exact IH | reflexivity].
Qed.

Lemma lower_rstrip (s : string) : lower (rstrip s) = rstrip (lower s).
Proof.
  induction s as [|c s IH]; simpl; [reflexivity|].
  rewrite <- IH, is_space_lower_char.
  destruct (rstrip s) as [|d r]; simpl; [|reflexivity].
  destruct (is_space c); reflexivity.
Qed.

Lemma lower_strip (s : string) : lower (strip s) = strip (lower s).
Proof. unfold strip. now rewrite lower_rstrip, lower_lstrip. Qed.

Lemma rstrip_idem (s : string) : rstrip (rstrip s) = rstrip s.
Proof.
  induction s as [|c s IH]; simpl; [reflexivity|].
  destruct (rstrip s) as [|d r] eqn:R.
  - destruct (is_space c) eqn:E; simpl; [reflexivity | now rewrite E].
  - change (rstrip (String c (String d r))) with
      (match rstrip (String d r) with
       | EmptyString =>
           if is_space c then EmptyString else String c EmptyString
       | r' => String c r'
       end).
    now rewrite IH.
Qed.

Lemma lstrip_no_leading_space (s : string) : no_leading_space (lstrip s).
Proof.
  induction s as [|c s IH]; simpl; [exact I|].
  destruct (is_space c) eqn:E; [exact IH | exact E].
Qed.

Lemma lstrip_fixed (s : string) : no_leading_space s -> lstrip s = s.
Proof. destruct s as [|c s]; simpl; [reflexivity | now intros ->]. Qed.

Lemma rstrip_no_leading_space (s : string) :
  no_leading_space s -> no_leading_space (rstrip s).
Proof.
  destruct s as [|c s]; simpl; [exact id|]. intros E.
  destruct (rstrip s); [rewrite E|]; exact E.
Qed.

Lemma strip_idem (s : string) : strip (strip s) = strip s.
Proof.
  unfold strip.
  rewrite (lstrip_fixed (rstrip (lstrip s))).
  - apply rstrip_idem.
  - apply rstrip_no_leading_space, lstrip_no_leading_space.
Qed.

(** Normalizing a normalized code changes nothing. *)
Lemma strip_lower_idem (s : string) :
  strip (lower (strip (lower s))) = strip (lower s).
Proof. now rewrite lower_strip, lower_idem, strip_idem. Qed.

(** ** The catalog *)

Lemma catalog_lookup (k : string) :
  match dict_get LanguageService.SUPPORTED_LANGUAGES k with
  | Some d => enabled d
  | None => false
  end = true <-> In k get_language_codes.
Proof.
  unfold get_language_codes. cbn -[String.eqb].
  destruct (String.eqb_spec "en" k) as [<-|E1]; [intuition|].
  destruct (String.eqb_spec "hi" k) as [<-|E2]; [intuition|].
  destruct (String.eqb_spec "mr" k) as [<-|E3]; [intuition|].
  split; [discriminate | intuition].
Qed.

Lemma catalog_code_normal (k : string) :
  In k get_language_codes -> strip (lower k) = k /\ lower k = k /\ k <> "".
Proof.
  unfold get_language_codes. cbn.
  intros [<-|[<-|[<-|[]]]]; repeat split; discriminate.
Qed.

Lemma validate_language_str (s : string) :
  validate_language (PyStr s) = true <->
  In (strip (lower s)) get_language_codes.
Proof.
  rewrite <- catalog_lookup. unfold validate_language.
  cbn [truthy isinstance_str negb orb].
  destruct (String.eqb_spec s "") as [->|_]; [|cbn [negb orb]; reflexivity].
  cbn. split; discriminate.
Qed.

(** X1: [validate_language] accepts exactly the strings whose lowercased
    and trimmed form is one of the codes of [get_language_codes]; every
    other value ([None], numbers, lists, the empty string, blanks) is
    refused. *)
Theorem validate_language_iff (v : pyval) :
  validate_language v = true <->
  exists s, v = PyStr s /\ In (strip (lower s)) get_language_codes.
Proof.
  split.
  - intros H. destruct v;
      try (rewrite validate_language_non_str in H by reflexivity;
           discriminate).
    exists s. split; [reflexivity | now apply validate_language_str].
  - intros (s & -> & H). now apply validate_language_str.
Qed.

Lemma normalize_language_code_str (s : string) :
  normalize_language_code (PyStr s) =
  if validate_language (PyStr s) then Some (strip (lower s)) else None.
Proof.
  unfold normalize_language_code.
  cbn [truthy isinstance_str negb orb].
  destruct (String.eqb_spec s "") as [->|Hs]; [reflexivity|].
  cbn [negb orb].
  destruct (validate_language (PyStr (strip (lower s)))) eqn:E1;
    destruct (validate_language (PyStr s)) eqn:E2; try reflexivity.
  - apply validate_language_str in E1. rewrite strip_lower_idem in E1.
    apply validate_language_str in E1. congruence.
  - apply validate_language_str in E2.
    rewrite <- strip_lower_idem in E2.
    apply validate_language_str in E2. congruence.
Qed.

(** X2: [normalize_language_code] returns a code exactly for the inputs
    [validate_language] accepts, the code is the lowercased, trimmed
    input and a member of the catalog, and normalizing it again returns
    it unchanged. *)
Theorem normalize_language_code_iff (v : pyval) (n : string) :
  normalize_language_code v = Some n <->
  validate_language v = true /\
  exists s, v = PyStr s /\ n = strip (lower s) /\
            In n get_language_codes /\
            normalize_language_code (PyStr n) = Some n.
Proof.
  split.
  - intros H. destruct v; try discriminate H.
    + unfold normalize_language_code in H. cbn in H.
      destruct b; discriminate.
    + unfold normalize_language_code in H. cbn in H.
      now rewrite orb_true_r in H.
    + rewrite normalize_language_code_str in H.
      destruct (validate_language (PyStr s)) eqn:E; [|discriminate].
      injection H as <-. split; [reflexivity|].
      apply validate_language_str in E.
      exists s. repeat split; try assumption.
      rewrite normalize_language_code_str.
      destruct (catalog_code_normal _ E) as (Hn & _).
      replace (validate_language (PyStr (strip (lower s)))) with true.
      * now rewrite Hn.
      * symmetry. apply validate_language_str. now rewrite Hn.
    + unfold normalize_language_code in H. cbn in H.
      destruct items; discriminate.
  - intros (Hv & s & -> & -> & _).
    rewrite normalize_language_code_str. now rewrite Hv.
Qed.

Lemma catalog_index_lower (s : string) :
  validate_language (PyStr s) = true ->
  (strip (lower s) = lower s ->
   exists d, dict_get LanguageService.SUPPORTED_LANGUAGES (lower s) = Some d /\
             LanguageService.tts_code d = lower s) /\
  (strip (lower s) <> lower s ->
   dict_get LanguageService.SUPPORTED_LANGUAGES (lower s) = None).
Proof.
  intros Hv. apply validate_language_str in Hv. split.
  - intros E. rewrite E in Hv. unfold get_language_codes in Hv. cbn in Hv.
    destruct Hv as [<-|[<-|[<-|[]]]]; eexists; split; reflexivity.
  - intros Hne.
    destruct (dict_get LanguageService.SUPPORTED_LANGUAGES (lower s))
      as [d|] eqn:E; [|reflexivity].
    exfalso. apply Hne.
    assert (Hin : In (lower s) get_language_codes).
    { apply catalog_lookup. rewrite E.
      revert E. cbn -[String.eqb].
      repeat (destruct (String.eqb _ (lower s));
              [intros [= <-]; reflexivity|]).
      discriminate. }
    destruct (catalog_code_normal _ Hin) as (Hn & _).
    now rewrite lower_idem in Hn.
Qed.

(** X3: the metadata getters return [None] for an input that does not
    validate and, for a supported code, the name, the native name and the
    speech code of its catalog entry (the speech code is the code
    itself); for a supported code written with surrounding
    whitespace, which [validate_language] accepts, each of them raises
    [KeyError] on the untrimmed key. *)
Theorem metadata_getters_cases (v : pyval) :
  (validate_language v = false ->
   get_language_name v = Value None /\ get_native_name v = Value None /\
   get_tts_code v = Value None) /\
  (forall s, v = PyStr s -> validate_language v = true ->
     strip (lower s) = lower s ->
     exists d,
       dict_get LanguageService.SUPPORTED_LANGUAGES (lower s) = Some d /\
       get_language_name v = Value (Some (LanguageService.name d)) /\
       get_native_name v = Value (Some (LanguageService.native d)) /\
       get_tts_code v = Value (Some (LanguageService.tts_code d)) /\
       LanguageService.tts_code d = lower s) /\
  (forall s, v = PyStr s -> validate_language v = true ->
     strip (lower s) <> lower s ->
     get_language_name v = KeyError (lower s) /\
     get_native_name v = KeyError (lower s) /\
     get_tts_code v = KeyError (lower s)).
Proof.
  unfold get_language_name, get_native_name, get_tts_code, dict_index.
  split; [|split].
  - intros ->. repeat split.
  - intros s -> Hv Heq. rewrite Hv. cbn [negb].
    destruct (proj1 (catalog_index_lower s Hv) Heq) as (d & Hd & Htts).
    exists d. rewrite Hd. repeat split; [exact Htts].
  - intros s -> Hv Hne. rewrite Hv. cbn [negb].
    rewrite (proj2 (catalog_index_lower s Hv) Hne). repeat split.
Qed.

Lemma metadata_getters_cases_witness :
  (get_language_name (PyStr "HI") = Value (Some "Hindi") /\
   get_tts_code (PyStr "HI") = Value (Some "hi")) /\
  (get_language_name (PyStr " Hi ") = KeyError " hi " /\
   get_native_name (PyStr " Hi ") = KeyError " hi " /\
   get_tts_code (PyStr " Hi ") = KeyError " hi ").
Proof.
  split.
  - destruct (metadata_getters_cases (PyStr "HI")) as (_ & H & _).
    destruct (H "HI" eq_refl eq_refl eq_refl) as (d & Hd & Hn & _ & Ht & _).
    injection Hd as <-. split; [exact Hn | exact Ht].
  - destruct (metadata_getters_cases (PyStr " Hi ")) as (_ & _ & H).
    apply (H " Hi "); [reflexivity | reflexivity | discriminate].
Defined.

Example metadata_getters_hindi :
  get_language_name (PyStr "HI") = Value (Some "Hindi") /\
  get_native_name (PyStr "hi") = get_native_name (PyStr "Hi") /\
  get_tts_code (PyStr "Hi") = Value (Some "hi") /\
  get_language_name (PyStr "mr") = Value (Some "Marathi") /\
  get_language_name (PyStr "en") = Value (Some "English") /\
  get_native_name (PyStr "EN") = Value (Some "English").
Proof. repeat split. Qed.

(** ** class Config *)

Lemma config_catalog_lookup (k : string) :
  LanguageService.dict_get LanguageConfig.SUPPORTED_LANGUAGES k <> None <->
  In k get_language_codes.
Proof.
  unfold get_language_codes. cbn -[String.eqb].
  destruct (String.eqb_spec "en" k) as [<-|E1];
    [split; [intuition | discriminate]|].
  destruct (String.eqb_spec "hi" k) as [<-|E2];
    [split; [intuition | discriminate]|].
  destruct (String.eqb_spec "mr" k) as [<-|E3];
    [split; [intuition | discriminate]|].
  split; [congruence | intuition].
Qed.

Lemma is_language_supported_iff (c : string) :
  LanguageConfig.is_language_supported c = true <-> In c get_language_codes.
Proof.
  rewrite <- config_catalog_lookup. unfold LanguageConfig.is_language_supported.
  destruct (dict_get _ c); split; congruence.
Qed.

(** X4: [Config.is_language_supported] is the exact-match test of the
    same catalog: it accepts a string if and only if
    [LanguageService.normalize_language_code] returns that very string,
    so it refuses the upper-case and padded spellings that
    [LanguageService.validate_language] accepts. *)
Theorem is_language_supported_exact (c : string) :
  (LanguageConfig.is_language_supported c = true <->
   normalize_language_code (PyStr c) = Some c) /\
  (LanguageConfig.is_language_supported c = true ->
   validate_language (PyStr c) = true) /\
  LanguageConfig.is_language_supported "EN" = false /\
  validate_language (PyStr "EN") = true.
Proof.
  split; [|split; [|split; reflexivity]].
  - rewrite is_language_supported_iff, normalize_language_code_str. split.
    + intros Hin. destruct (catalog_code_normal _ Hin) as (Hn & _).
      replace (validate_language (PyStr c)) with true
        by (symmetry; apply validate_language_str; now rewrite Hn).
      now rewrite Hn.
    + destruct (validate_language (PyStr c)) eqn:Hv; [|discriminate].
      intros [= Hn]. apply validate_language_str in Hv.
      now rewrite Hn in Hv.
  - intros H. apply is_language_supported_iff in H.
    apply validate_language_str.
    now destruct (catalog_code_normal _ H) as (-> & _).
Qed.

(** X5: [Config.get_language_info] and [Config.get_tts_language_code]
    raise [KeyError] exactly when the configured [DEFAULT_LANGUAGE] is not
    a key of the catalog, and then do so for every code asked, supported
    ones included; otherwise they return the entry of a supported code and
    the entry of the default language for any other string, so that the
    speech code is the code itself or the default language. *)
Theorem get_language_info_cases (env : LanguageConfig.environ) (c : string) :
  let default := LanguageConfig.DEFAULT_LANGUAGE env in
  (LanguageConfig.is_language_supported default = false ->
   LanguageConfig.get_language_info env c = KeyError default /\
   LanguageConfig.get_tts_language_code env c = KeyError default) /\
  (LanguageConfig.is_language_supported default = true ->
   LanguageConfig.get_tts_language_code env c =
     Value (if LanguageConfig.is_language_supported c then c else default) /\
   exists info,
     LanguageConfig.get_language_info env c = Value info /\
     LanguageService.dict_get LanguageConfig.SUPPORTED_LANGUAGES
       (if LanguageConfig.is_language_supported c then c else default)
     = Some info).
Proof.
  assert (Htts : forall k info,
            dict_get LanguageConfig.SUPPORTED_LANGUAGES k = Some info ->
            LanguageConfig.tts_code info = k).
  { intros k info. cbn -[String.eqb].
    destruct (String.eqb_spec "en" k) as [<-|_];
      [intros [= <-]; reflexivity|].
    destruct (String.eqb_spec "hi" k) as [<-|_];
      [intros [= <-]; reflexivity|].
    destruct (String.eqb_spec "mr" k) as [<-|_];
      [intros [= <-]; reflexivity|].
    discriminate. }
  cbv zeta.
  unfold LanguageConfig.get_tts_language_code, LanguageConfig.get_language_info,
    LanguageConfig.is_language_supported, dict_index.
  destruct (dict_get _ (LanguageConfig.DEFAULT_LANGUAGE env))
    as [dinfo|] eqn:Hd.
  - split; [discriminate|]. intros _.
    destruct (dict_get _ c) as [info|] eqn:Hc.
    + rewrite (Htts _ _ Hc). eauto.
    + rewrite (Htts _ _ Hd). eauto.
  - split; [|discriminate]. intros _. split; reflexivity.
Qed.

(** X6: [Config.validate_config] returns [True] exactly when both API
    keys are set to non-empty strings and [DEFAULT_LANGUAGE] is a key of
    the catalog; in every other case it raises [ValueError] (it never
    returns [False]), and once it has returned, [get_language_info] cannot
    raise. *)
Theorem validate_config_iff (env : LanguageConfig.environ) :
  (LanguageConfig.validate_config env = Ok true <->
   LanguageConfig.key_missing (LanguageConfig.env_GEMINI_API_KEY env) = false /\
   LanguageConfig.key_missing (LanguageConfig.env_LANGSMITH_API_KEY env)
     = false /\
   In (LanguageConfig.DEFAULT_LANGUAGE env) get_language_codes) /\
  (LanguageConfig.validate_config env = Ok true \/
   exists msg,
     LanguageConfig.validate_config env = Raise (mkExn ValueErrorC msg)) /\
  (LanguageConfig.validate_config env = Ok true ->
   forall c, exists info, LanguageConfig.get_language_info env c = Value info).
Proof.
  assert (Hiff : LanguageConfig.validate_config env = Ok true <->
     LanguageConfig.key_missing (LanguageConfig.env_GEMINI_API_KEY env)
       = false /\
     LanguageConfig.key_missing (LanguageConfig.env_LANGSMITH_API_KEY env)
       = false /\
     In (LanguageConfig.DEFAULT_LANGUAGE env) get_language_codes).
  { rewrite <- is_language_supported_iff.
    unfold LanguageConfig.validate_config.
    destruct (LanguageConfig.key_missing
                (LanguageConfig.env_GEMINI_API_KEY env));
      destruct (LanguageConfig.key_missing
                  (LanguageConfig.env_LANGSMITH_API_KEY env));
      cbn [app];
      try (split; [discriminate | intros (? & ? & _); discriminate]).
    destruct (LanguageConfig.is_language_supported _); cbn [negb];
      split; try discriminate; intuition (try discriminate). }
  split; [exact Hiff|]. split.
  - unfold LanguageConfig.validate_config.
    destruct (LanguageConfig.key_missing
                (LanguageConfig.env_GEMINI_API_KEY env));
      destruct (LanguageConfig.key_missing
                  (LanguageConfig.env_LANGSMITH_API_KEY env));
      cbn [app]; eauto.
    destruct (LanguageConfig.is_language_supported _); cbn [negb]; eauto.
  - intros H c. apply Hiff in H. destruct H as (_ & _ & Hin).
    apply is_language_supported_iff in Hin.
    unfold LanguageConfig.get_language_info, dict_index.
    unfold LanguageConfig.is_language_supported in Hin.
    destruct (dict_get _ (LanguageConfig.DEFAULT_LANGUAGE env));
      [|discriminate].
    destruct (dict_get _ c); eauto.
Qed.

(** * Further properties of the retry policy *)

Lemma for_indicator_same (inds : list string) (s : string) (b : bool) :
  for_indicator inds s b b = b.
Proof.
  induction inds as [|i inds IH]; simpl; [reflexivity|].
  destruct (contains i s); [reflexivity | exact IH].
Qed.

(** X7: an error is retryable if and only if its message contains none of
    the fatal indicators, in any letter case; in particular an error that
    matches no indicator at all is retried. *)
Theorem is_retryable_error_iff (error : exn) :
  _is_retryable_error error = true <->
  forall fatal, In fatal non_retryable_indicators ->
                ~ occurs_ci fatal (str error).
Proof.
  unfold _is_retryable_error. split.
  - intros H fatal Hin Hocc.
    rewrite for_indicator_hit in H; [discriminate|].
    exists fatal. split; [exact Hin | now apply contains_lower_iff].
  - intros H. rewrite for_indicator_miss.
    + apply for_indicator_same.
    + intros f Hf. destruct (contains f (lower (str error))) eqn:E;
        [|reflexivity].
      apply contains_lower_iff in E. now apply H in E.
Qed.

Lemma range_app (k : nat) (n : Z) :
  (Z.of_nat k < n)%Z ->
  exists rest, range n = (range (Z.of_nat k) ++ Z.of_nat k :: rest)%list.
Proof.
  intros H. unfold range. rewrite Nat2Z.id.
  replace (Z.to_nat n) with (k + S (Z.to_nat n - S k))%nat by lia.
  rewrite seq_app, map_app. cbn [seq map plus]. eauto.
Qed.

Lemma range_lt (n a : Z) : In a (range n) -> (0 <= a < n)%Z.
Proof.
  unfold range. intros H. apply in_map_iff in H.
  destruct H as (k & <- & Hk). apply in_seq in Hk. lia.
Qed.

Section RetryMoreProperties.

Context {W A : Type}.
Variables (max_attempts : Z) (base_delay : Q) (exponential_backoff : bool).
Variable func : pyfunc W A.

Local Abbreviation loop :=
  (retry_loop max_attempts base_delay exponential_backoff func).
Local Abbreviation delay_after :=
  (retry_delay base_delay exponential_backoff).

(** After retryable failures on the attempts [pre], each of which is
    followed by a sleep, a success ends the loop. *)
Lemma retry_loop_succeeds_after (pre : list Z) :
  Forall (fun a => (a <? max_attempts - 1)%Z = true /\
                   delay_accepted base_delay exponential_backoff a = true)
    pre ->
  forall (attempt : Z) (rest : list Z) (last_exception : option exn)
         (s s2 : W) (v : A),
  (forall i, (i < List.length pre)%nat ->
     exists e, error_at func i s = Some e /\
               is_Exception e = true /\ _is_retryable_error e = true) ->
  func_body func (after_calls func (List.length pre) s) = (Ok v, s2) ->
  exists t,
    loop (pre ++ attempt :: rest)%list last_exception s = (Ok v, s2, t) /\
    count_calls t = S (List.length pre) /\
    sleeps t = map delay_after pre.
Proof.
  intros Hpre.
  induction Hpre as [|a pre [Ha Hacc] _ IH];
    intros attempt rest last_exception s s2 v Hfail Hok.
  - exists [EvCall None]. cbn [app List.length after_calls] in *.
    split; [|split; reflexivity].
    exact (retry_attempts_success _ _ _ _ _ _ _ _ _ _ Hok).
  - destruct (Hfail 0%nat) as (e & He & Hexc & Hretry);
      [cbn; lia|].
    unfold error_at in He. cbn [after_calls] in He.
    destruct (func_body func s) as [[v0|e0] s'] eqn:Hbody;
      cbn [fst] in He; [discriminate|]. injection He as ->.
    destruct (retry_attempts_retry max_attempts base_delay
                exponential_backoff func a (pre ++ attempt :: rest)
                last_exception s s' e Hbody Hexc Hretry (fun _ => Hacc))
      as (logged & Hstep & Hcalls & Hsleeps).
    destruct (IH attempt rest (Some e) s' s2 v) as (t & Hrun & Hcount & Hsl).
    { intros i Hi. destruct (Hfail (S i)) as (e' & He' & H');
        [cbn; lia|].
      exists e'. split; [|exact H'].
      unfold error_at in *. cbn [after_calls] in He'.
      now rewrite Hbody in He'. }
    { cbn [List.length after_calls] in Hok. now rewrite Hbody in Hok. }
    exists (EvCall None :: logged ++ t)%list.
    cbn [app]. rewrite Hstep, Hrun. split; [reflexivity|].
    change (EvCall None :: logged ++ t)%list
      with ([EvCall None] ++ logged ++ t)%list.
    rewrite !count_calls_app, !sleeps_app, Hcalls, Hcount, Hsleeps, Hsl.
    split; [reflexivity|]. now rewrite Ha.
Qed.

(** The loop never invokes the function more often than it has
    attempts. *)
Lemma retry_loop_calls_le (attempts : list Z)
    (last_exception : option exn) (s : W) :
  (count_calls (snd (loop attempts last_exception s))
   <= List.length attempts)%nat.
Proof.
  revert last_exception s.
  induction attempts as [|attempt rest IH]; intros last_exception s.
  - cbn. lia.
  - destruct (retry_attempts_cases max_attempts base_delay
                exponential_backoff func attempt rest last_exception s)
      as [(r & s' & H) | [(r & s' & logged & H & Hc & _)
                         | (e & s' & logged & H & Hc & _)]].
    + rewrite H. cbn. lia.
    + rewrite H. cbn [snd List.length].
      change (EvCall None :: logged)%list with ([EvCall None] ++ logged)%list.
      rewrite count_calls_app, Hc. cbn. lia.
    + rewrite H. specialize (IH (Some e) s').
      destruct (loop rest (Some e) s') as [[r s2] t].
      cbn [snd List.length] in *.
      change (EvCall None :: logged ++ t)%list
        with ([EvCall None] ++ logged ++ t)%list.
      rewrite !count_calls_app, Hc. cbn. lia.
Qed.

End RetryMoreProperties.

Lemma filter_all (f : Z -> bool) (l : list Z) :
  (forall x, In x l -> f x = true) -> filter f l = l.
Proof.
  induction l as [|x l IH]; intros H; [reflexivity|].
  cbn. rewrite (H x) by now left. f_equal. apply IH.
  intros y Hy. apply H. now right.
Qed.

Lemma filter_range (n : Z) :
  (1 <= n)%Z -> filter (fun a => a <? n - 1)%Z (range n) = range (n - 1).
Proof.
  intros H. unfold range.
  replace (Z.to_nat n) with (S (Z.to_nat (n - 1))) by lia.
  rewrite seq_S, map_app, filter_app. cbn [plus map filter].
  replace (Z.of_nat (Z.to_nat (n - 1)) <? n - 1)%Z with false
    by (symmetry; apply Z.ltb_ge; lia).
  rewrite app_nil_r. apply filter_all.
  intros x Hx. apply in_map_iff in Hx. destruct Hx as (k & <- & Hk).
  apply in_seq in Hk. apply Z.ltb_lt. lia.
Qed.





(** X10: whatever the function does, the wrapper invokes it at most
    [max_attempts] times (the configured number when the argument is
    [None] or 0), and not at all when [max_attempts] is negative. *)
Theorem with_retry_call_bound {W A : Type} (cfg : config)
    (max_attempts : option Z) (base_delay : option Q)
    (exponential_backoff : bool) (func : pyfunc W A) (s : W) :
  (count_calls
     (snd (with_retry cfg max_attempts base_delay exponential_backoff
             func s))
   <= Z.to_nat (or_int max_attempts (MAX_RETRY_ATTEMPTS cfg)))%nat.
Proof.
  unfold with_retry. rewrite <- range_length.
  apply (retry_loop_calls_le _ _ exponential_backoff func).
Qed.

(** X11: a negative [max_attempts] is kept as it is (it is not falsy):
    the function is never invoked, nothing is slept or logged, and
    [AIServiceError] is raised with "None" in place of the last error. *)
Theorem with_retry_negative_attempts {W A : Type} (cfg : config) (n : Z)
    (base_delay : option Q) (exponential_backoff : bool)
    (func : pyfunc W A) (s : W) :
  (n < 0)%Z ->
  with_retry cfg (Some n) base_delay exponential_backoff func s =
  (Raise (mkExn AIServiceErrorC
            ("All retry attempts failed in " ++ func_name func ++ ": None")),
   s, []).
Proof.
  intros Hn. unfold with_retry. replace (or_int (Some n) _) with n
    by (unfold or_int; destruct (Z.eqb_spec n 0); [lia | reflexivity]).
  unfold range. replace (Z.to_nat n) with 0%nat by lia. reflexivity.
Qed.

Lemma with_retry_negative_attempts_witness :
  with_retry Config (Some (-1)%Z) None true always_timeout 0%nat =
  (Raise (mkExn AIServiceErrorC
            ("All retry attempts failed in " ++ func_name always_timeout
             ++ ": None")), 0%nat, []).
Proof.
  apply (with_retry_negative_attempts Config (-1) None true always_timeout
           0%nat).
  lia.
Defined.

Lemma sleep_nanoseconds_first (delay : Q) :
  sleep_nanoseconds (delay * inject_Z (2 ^ 0)) = sleep_nanoseconds delay.
Proof.
  unfold sleep_nanoseconds. destruct delay as [num den].
  cbn [Qmult inject_Z Qnum Qden]. change (2 ^ 0)%Z with 1%Z.
  now rewrite Z.mul_1_r, Pos.mul_1_r.
Qed.

Lemma sleep_nanoseconds_negative (delay : Q) :
  (delay < 0)%Q -> (sleep_nanoseconds delay < 0)%Z.
Proof.
  unfold Qlt, sleep_nanoseconds. destruct delay as [num den].
  cbn [Qnum Qden]. intros H.
  destruct (Z.leb_spec 0 (num * 1000000000)); [lia|].
  assert (1 <= (- (num * 1000000000) + Z.pos den - 1) / Z.pos den)%Z;
    [|lia].
  apply Z.div_le_lower_bound; lia.
Qed.



Example with_retry_huge_negative_delay :
  exists t,
    with_retry Config (Some 2%Z) (Some (-10000000000 # 1)) true
      always_timeout 0%nat =
      (Raise (mkExn OverflowErrorC
                "timestamp too large to convert to C _PyTime_t"),
       1%nat, t) /\
    count_calls t = 1%nat /\ sleeps t = [].
Proof. eexists. vm_compute. repeat split. Qed.

(** * Further properties of the fallback orchestrator *)

Lemma fallback_chain_nonempty (requested : pyval) :
  exists first rest, get_language_fallback_chain requested = Ok (first :: rest).
Proof.
  destruct (fallback_chain_cases requested) as [E|(l & _ & E)];
    rewrite E; eauto.
Qed.

(** X13: the first language of the fallback chain is the language
    [get_fallback_language] returns for the same input, and every
    language of the chain passes [validate_language]. *)
Theorem fallback_chain_head (requested : pyval) :
  exists first rest,
    get_language_fallback_chain requested = Ok (first :: rest) /\
    get_fallback_language requested = Ok (PyStr first) /\
    Forall (fun l => validate_language (PyStr l) = true) (first :: rest).
Proof.
  rewrite get_language_fallback_chain_eq. unfold get_fallback_language.
  assert (Hen : validate_language (PyStr "en") = true) by reflexivity.
  destruct requested;
    try (rewrite validate_language_non_str by reflexivity;
         eexists _, _; repeat split; repeat constructor; exact Hen).
  destruct (validate_language (PyStr s)) eqn:Hv.
  - cbn [py_lower].
    assert (Hl : validate_language (PyStr (lower s)) = true).
    { apply validate_language_str. rewrite lower_idem.
      now apply validate_language_str. }
    destruct (String.eqb_spec "en" (lower s)) as [E|E].
    + eexists _, _. split; [reflexivity|]. rewrite <- E.
      split; [reflexivity|]. repeat constructor.
    + eexists _, _. split; [reflexivity|].
      split; [reflexivity|]. repeat constructor; assumption.
  - eexists _, _. repeat split. repeat constructor.
Qed.

Section LanguageOperationMore.

Context {W A : Type}.
Variable operation_name : string.
Variable operation_func : string -> body W A.

(** One iteration of the loop, case by case. *)
Lemma try_languages_step (cfg : config) (chain rest : list string)
    (lang : string) (s : W) :
  try_languages cfg operation_name operation_func chain (lang :: rest) s =
  let '(r, s') := operation_func lang s in
  match r with
  | Ok v => (Ok v, s', [EvCall (Some lang)])
  | Raise e =>
      if is_Exception e
      then
        let logs :=
          if ENABLE_FALLBACK_LOGGING cfg
          then [EvLog (LogLanguageError operation_name lang e None)]
          else [] in
        if String.eqb lang (last chain "")
        then (Raise (mkExn LanguageErrorC
                       ("All language fallbacks failed for "
                        ++ operation_name ++ ": " ++ str e)),
              s', EvCall (Some lang) :: logs)
        else
          let '(r2, s2, t) :=
            try_languages cfg operation_name operation_func chain rest s' in
          (r2, s2, EvCall (Some lang) :: logs ++ t)%list
      else (Raise e, s', [EvCall (Some lang)])
  end.
Proof.
  cbn [try_languages]. unfold bind at 1. unfold try_except.
  unfold bind at 1. unfold call_with_language.
  destruct (operation_func lang s) as [[v|e] s']; [reflexivity|].
  destruct (is_Exception e); [|reflexivity].
  unfold log_language_error.
  destruct (ENABLE_FALLBACK_LOGGING cfg);
    destruct (String.eqb lang (last chain "")); cbn;
    try reflexivity;
    now destruct (try_languages _ _ _ chain rest s') as [[r2 s2] t].
Qed.

Lemma try_languages_logging (cfg cfg' : config) (chain todo : list string)
    (s : W) :
  let out := try_languages cfg operation_name operation_func chain todo s in
  let out' := try_languages cfg' operation_name operation_func chain todo s in
  fst out = fst out' /\
  without_logs (snd out) = without_logs (snd out') /\
  (ENABLE_FALLBACK_LOGGING cfg = false -> without_logs (snd out) = snd out).
Proof.
  cbv zeta. revert s. induction todo as [|lang rest IH]; intros s.
  - repeat split.
  - rewrite !try_languages_step.
    destruct (operation_func lang s) as [[v|e] s']; [repeat split|].
    destruct (is_Exception e); [|repeat split].
    destruct (String.eqb lang (last chain "")).
    + cbn [fst snd]. split; [reflexivity|].
      split.
      * destruct (ENABLE_FALLBACK_LOGGING cfg);
          destruct (ENABLE_FALLBACK_LOGGING cfg'); reflexivity.
      * intros ->. reflexivity.
    + specialize (IH s').
      destruct (try_languages cfg _ _ chain rest s') as [[r2 s2] t].
      destruct (try_languages cfg' _ _ chain rest s') as [[r2' s2'] t'].
      cbn [fst snd] in *. destruct IH as (IH1 & IH2 & IH3).
      split; [exact IH1|]. split.
      * unfold without_logs in *.
        destruct (ENABLE_FALLBACK_LOGGING cfg);
          destruct (ENABLE_FALLBACK_LOGGING cfg'); cbn;
          now rewrite IH2.
      * intros Hoff. rewrite Hoff. unfold without_logs in *. cbn.
        now rewrite (IH3 Hoff).
Qed.

(** What the loop can do on a suffix [todo] of the chain that ends with
    the chain's last language and has no duplicate. *)
Lemma try_languages_outcome (cfg : config) (chain todo : list string) :
  todo <> [] -> NoDup todo -> last todo "" = last chain "" ->
  forall s : W,
    let out := try_languages cfg operation_name operation_func chain todo s in
    (1 <= count_calls (snd out) <= List.length todo)%nat /\
    (exists rest, todo = (called_languages (snd out) ++ rest)%list) /\
    (forall e, fst (fst out) = Raise e -> is_Exception e = true ->
       exists e0, e = mkExn LanguageErrorC
                        ("All language fallbacks failed for "
                         ++ operation_name ++ ": " ++ str e0)).
Proof.
  cbv zeta. induction todo as [|lang rest IH]; intros Hne Hnd Hlast s;
    [congruence|].
  rewrite try_languages_step.
  destruct (operation_func lang s) as [[v|e] s'].
  - cbn. split; [lia|]. split; [now exists rest | discriminate].
  - destruct (is_Exception e) eqn:Hexc.
    2:{ cbn. split; [lia|]. split; [now exists rest|].
        intros e' [= <-]. congruence. }
    destruct (String.eqb_spec lang (last chain "")) as [Heq|Hneq].
    + cbn [fst snd]. split; [|split].
      * destruct (ENABLE_FALLBACK_LOGGING cfg); cbn; lia.
      * exists rest. destruct (ENABLE_FALLBACK_LOGGING cfg); reflexivity.
      * intros e' [= <-] _. now exists e.
    + destruct rest as [|lang2 rest2].
      { cbn in Hlast. congruence. }
      inversion Hnd as [|? ? Hnotin Hnd']; subst.
      destruct (IH (ltac:(discriminate)) Hnd' Hlast s')
        as ((Hc1 & Hc2) & (rest' & Hpre) & Hcls).
      destruct (try_languages cfg _ _ chain (lang2 :: rest2) s')
        as [[r2 s2] t].
      cbn [fst snd] in *.
      change (EvCall (Some lang) ::
              (if ENABLE_FALLBACK_LOGGING cfg
               then [EvLog (LogLanguageError operation_name lang e None)]
               else []) ++ t)%list
        with ([EvCall (Some lang)] ++
              (if ENABLE_FALLBACK_LOGGING cfg
               then [EvLog (LogLanguageError operation_name lang e None)]
               else []) ++ t)%list.
      rewrite !count_calls_app, !called_languages_app.
      split; [|split].
      * destruct (ENABLE_FALLBACK_LOGGING cfg); cbn in *; lia.
      * exists rest'.
        destruct (ENABLE_FALLBACK_LOGGING cfg); cbn; now rewrite Hpre at 1.
      * exact Hcls.
Qed.

End LanguageOperationMore.

(** X14: [ENABLE_FALLBACK_LOGGING] changes nothing but the log: under
    any two configurations [handle_language_operation] ends with the
    same result and state and performs the same invocations, and with
    the flag off it writes no record at all. *)
Theorem handle_language_operation_logging {W A : Type} (cfg cfg' : config)
    (operation_name : string) (operation_func : string -> body W A)
    (language : pyval) (s : W) :
  let out :=
    handle_language_operation cfg operation_name operation_func language s in
  let out' :=
    handle_language_operation cfg' operation_name operation_func language s in
  fst out = fst out' /\
  without_logs (snd out) = without_logs (snd out') /\
  (ENABLE_FALLBACK_LOGGING cfg = false -> without_logs (snd out) = snd out).
Proof.
  cbv zeta.
  destruct (fallback_chain_nonempty language) as (first & rest & Hchain).
  rewrite !(handle_language_operation_eq _ operation_name operation_func
              language _ s Hchain).
  apply try_languages_logging.
Qed.

(** X15: whatever the operation does, [handle_language_operation]
    invokes it at least once and at most twice, on an initial segment of
    the fallback chain in order; and the only exception of class
    [Exception] it lets out is [LanguageError] "All language fallbacks
    failed for ...": the "No valid languages in fallback chain" error
    after the loop is never raised. *)
Theorem handle_language_operation_outcome {W A : Type} (cfg : config)
    (operation_name : string) (operation_func : string -> body W A)
    (language : pyval) (s : W) :
  let out :=
    handle_language_operation cfg operation_name operation_func language s in
  (1 <= count_calls (snd out) <= 2)%nat /\
  (exists chain rest,
     get_language_fallback_chain language = Ok chain /\
     chain = (called_languages (snd out) ++ rest)%list) /\
  (forall e, fst (fst out) = Raise e -> is_Exception e = true ->
     exists e0, e = mkExn LanguageErrorC
                      ("All language fallbacks failed for "
                       ++ operation_name ++ ": " ++ str e0)).
Proof.
  cbv zeta.
  destruct (fallback_chain_nonempty language) as (first & rest & Hchain).
  rewrite (handle_language_operation_eq _ operation_name operation_func
             language _ s Hchain).
  destruct (try_languages_outcome operation_name operation_func cfg
              (first :: rest) (first :: rest)) with (s := s)
    as (Hcalls & (rest' & Hpre) & Hcls).
  - discriminate.
  - exact (fallback_chain_NoDup _ _ Hchain).
  - reflexivity.
  - split; [|split].
    + assert (List.length (first :: rest) <= 2)%nat; [|lia].
      destruct (fallback_chain_cases language) as [E|(l & _ & E)];
        rewrite E in Hchain; injection Hchain as <- <-; cbn; lia.
    + exists (first :: rest), rest'. split; [exact Hchain | exact Hpre].
    + exact Hcls.
Qed.

(** * Further properties of the fallback summary *)

Lemma length_append_string (a b : string) :
  String.length (a ++ b) = (String.length a + String.length b)%nat.
Proof. induction a as [|c a IH]; simpl; [reflexivity | now rewrite IH]. Qed.

Lemma len_append (a b : string) : len (a ++ b) = (len a + len b)%Z.
Proof. unfold len. rewrite length_append_string. lia. Qed.

Lemma rstrip_prefix (s : string) : exists q, s = rstrip s ++ q.
Proof.
  induction s as [|c s (q & IH)]; [now exists ""|].
  simpl. destruct (rstrip s) as [|d r] eqn:R.
  - destruct (is_space c).
    + now exists (String c s).
    + exists s. reflexivity.
  - exists q. simpl. now rewrite IH at 1.
Qed.

Lemma lstrip_suffix (s : string) : exists p, s = p ++ lstrip s.
Proof.
  induction s as [|c s (p & IH)]; [now exists ""|].
  simpl. destruct (is_space c).
  - exists (String c p). simpl. now rewrite IH at 1.
  - now exists "".
Qed.

Lemma len_strip_le (s : string) : (len (strip s) <= len s)%Z.
Proof.
  unfold strip.
  destruct (lstrip_suffix s) as (p & Hp).
  destruct (rstrip_prefix (lstrip s)) as (q & Hq).
  rewrite Hp at 2. rewrite Hq at 2. rewrite !len_append.
  unfold len. lia.
Qed.

Lemma take_prefix (n : nat) (s : string) : exists q, s = take n s ++ q.
Proof.
  revert s; induction n as [|n IH]; intros s; [now exists s|].
  destruct s as [|c s]; [now exists ""|].
  destruct (IH s) as (q & Hq). exists q. simpl. now rewrite Hq at 1.
Qed.

Lemma length_take_le (n : nat) (s : string) :
  (String.length (take n s) <= n)%nat.
Proof.
  revert s; induction n as [|n IH]; intros [|c s]; simpl; try lia.
  specialize (IH s). lia.
Qed.

Lemma take_no_leading_space (n : nat) (s : string) :
  no_leading_space s -> no_leading_space (take n s).
Proof. destruct n, s; simpl; auto. Qed.

Lemma strip_no_leading_space (s : string) : no_leading_space (strip s).
Proof. apply rstrip_no_leading_space, lstrip_no_leading_space. Qed.

(** The slice of a trimmed text, trimmed again, is a prefix of it. *)
Lemma strip_slice_prefix (t : string) (stop : Z) :
  no_leading_space t -> exists q, t = strip (slice_to t stop) ++ q.
Proof.
  intros Ht.
  assert (H : forall n, exists q, t = strip (take n t) ++ q).
  { intros n. unfold strip.
    rewrite lstrip_fixed by now apply take_no_leading_space.
    destruct (take_prefix n t) as (q1 & H1).
    destruct (rstrip_prefix (take n t)) as (q2 & H2).
    exists (q2 ++ q1). rewrite <- append_assoc_string, <- H2. exact H1. }
  unfold slice_to. destruct (stop <? 0)%Z; apply H.
Qed.

(** The branch [create_fallback_summary] takes on a text that is not
    blank. *)
Lemma create_fallback_summary_branches (text : string) (max_length : Z) :
  ~ whitespace_only text ->
  let t := strip text in
  (create_fallback_summary text max_length = t /\
   (len t <= max_length)%Z) \/
  (exists a b rest,
     split_period_space t = a :: b :: rest /\
     create_fallback_summary text max_length = (a ++ ". " ++ b) ++ "." /\
     (len ((a ++ ". " ++ b) ++ ".") <= max_length < len t)%Z) \/
  (create_fallback_summary text max_length =
     strip (slice_to t max_length) ++ "..." /\
   (max_length < len t)%Z).
Proof.
  intros Hnws. cbv zeta. unfold create_fallback_summary.
  destruct (String.eqb text "" || (len (strip text) =? 0)%Z) eqn:Hws.
  { apply no_content_iff in Hws. contradiction. }
  destruct (Z.leb_spec (len (strip text)) max_length) as [Hfit|Hlong];
    [now left|].
  right.
  destruct (Z.geb_spec
              (Z.of_nat (List.length (split_period_space (strip text)))) 2)
    as [Hge|Hlt]; [|now right].
  destruct (split_period_space (strip text)) as [|a [|b rest]] eqn:Hsplit;
    cbn [List.length] in Hge; try lia.
  cbn [first_two firstn join].
  destruct (Z.leb_spec (len ((a ++ ". " ++ b) ++ ".")) max_length);
    [|now right].
  left. exists a, b, rest. repeat split; assumption || lia.
Qed.

(** X16: for a text that is not blank and [max_length >= 0] the summary
    has at most [max_length + 3] characters (the three of the ellipsis);
    for any text it has at most [max(33, max_length + 3)], 33 being the
    length of the sentinel. *)
Theorem create_fallback_summary_length (text : string) (max_length : Z) :
  (0 <= max_length)%Z ->
  (len (create_fallback_summary text max_length)
   <= Z.max 33 (max_length + 3))%Z /\
  (~ whitespace_only text ->
   (len (create_fallback_summary text max_length) <= max_length + 3)%Z).
Proof.
  intros Hmax.
  assert (Hnb : ~ whitespace_only text ->
            (len (create_fallback_summary text max_length)
             <= max_length + 3)%Z).
  { intros Hnws.
    destruct (create_fallback_summary_branches text max_length Hnws)
      as [(-> & H)|[(a & b & rest & _ & -> & H)|(-> & H)]]; try lia.
    rewrite len_append. change (len "...") with 3%Z.
    pose proof (len_strip_le (slice_to (strip text) max_length)) as Hs.
    assert (len (slice_to (strip text) max_length) <= max_length)%Z; [|lia].
    unfold slice_to. destruct (Z.ltb_spec max_length 0); [lia|].
    pose proof (length_take_le (Z.to_nat max_length) (strip text)).
    unfold len. lia. }
  split; [|exact Hnb].
  destruct (String.eqb text "" || (len (strip text) =? 0)%Z) eqn:Hws.
  - unfold create_fallback_summary. rewrite Hws.
    change (len "No content available for summary.") with 33%Z. lia.
  - assert (~ whitespace_only text)
      by (intros H; apply no_content_iff in H; congruence).
    specialize (Hnb H). lia.
Qed.

Lemma create_fallback_summary_length_witness :
  (len (create_fallback_summary "Breaking news from the city" 10)
   <= Z.max 33 (10 + 3))%Z /\
  (~ whitespace_only "Breaking news from the city" ->
   (len (create_fallback_summary "Breaking news from the city" 10)
    <= 10 + 3)%Z).
Proof.
  apply (create_fallback_summary_length "Breaking news from the city" 10).
  lia.
Defined.

(** X17: the summary is never the empty string, and for a text that is
    not blank it starts with a prefix of the trimmed text and adds
    nothing but a closing period or the ellipsis; it is the whole
    trimmed text when nothing is added. *)
Theorem create_fallback_summary_content (text : string) (max_length : Z) :
  create_fallback_summary text max_length <> "" /\
  (~ whitespace_only text ->
   exists p q marker,
     strip text = p ++ q /\
     create_fallback_summary text max_length = p ++ marker /\
     (marker = "" /\ q = "" \/ marker = "." \/ marker = "...")).
Proof.
  assert (Hcontent : ~ whitespace_only text ->
    exists p q marker,
      strip text = p ++ q /\
      create_fallback_summary text max_length = p ++ marker /\
      (marker = "" /\ q = "" \/ marker = "." \/ marker = "...")).
  { intros Hnws.
    destruct (create_fallback_summary_branches text max_length Hnws)
      as [(-> & _)|[(a & b & rest & Hsplit & -> & _)|(-> & _)]].
    - exists (strip text), "", "". rewrite append_empty_r. auto.
    - pose proof (join_split (strip text)) as Hjoin. rewrite Hsplit in Hjoin.
      destruct rest as [|c rest].
      + exists (a ++ ". " ++ b), "", ".". rewrite append_empty_r.
        cbn [join] in Hjoin. auto.
      + exists (a ++ ". " ++ b), (". " ++ join ". " (c :: rest)), ".".
        split; [|auto]. rewrite <- Hjoin.
        change (join ". " (a :: b :: c :: rest))
          with (a ++ ". " ++ b ++ ". " ++ join ". " (c :: rest)).
        now rewrite !append_assoc_string.
    - destruct (strip_slice_prefix (strip text) max_length
                  (strip_no_leading_space text)) as (q & Hq).
      exists (strip (slice_to (strip text) max_length)), q, "...". auto. }
  split; [|exact Hcontent].
  destruct (String.eqb text "" || (len (strip text) =? 0)%Z) eqn:Hws.
  - unfold create_fallback_summary. rewrite Hws. discriminate.
  - assert (Hnws : ~ whitespace_only text)
      by (intros H; apply no_content_iff in H; congruence).
    destruct (Hcontent Hnws) as (p & q & marker & Ht & -> & Hm).
    destruct Hm as [(-> & ->)|[->| ->]].
    + rewrite !append_empty_r in *. rewrite <- Ht. intros E.
      apply strip_empty_iff in E. contradiction.
    + destruct p; discriminate.
    + destruct p; discriminate.
Qed.

(** * Properties of with_language_fallback *)

Lemma log_language_error_run {W : Type} (cfg : config)
    (operation language : string) (error : exn)
    (fallback_used : option string) (s : W) :
  (fallback_used = None \/
   fallback_used = Some LanguageService.get_default_language) ->
  log_language_error cfg operation language error fallback_used s =
  (Ok tt, s, language_error_log cfg operation language error fallback_used).
Proof.
  unfold log_language_error, language_error_log.
  intros [-> | ->]; destruct (ENABLE_FALLBACK_LOGGING cfg); reflexivity.
Qed.

(** The wrapper, case by case on what the function does. *)
Lemma with_language_fallback_eq {W A : Type} (cfg : config)
    (fallback_language : option string) (func : argfunc W A)
    (args : list pyval) (kwargs : list (string * pyval))
    (w : W) (log : list module_record) :
  with_language_fallback cfg fallback_language func args kwargs (w, log) =
  let language := effective_language args kwargs in
  let target := fallback_code language in
  let default := LanguageService.get_default_language in
  let '(args1, kwargs1) := set_language_argument args kwargs target in
  let log1 := fallback_info_log cfg (arg_name func) language log in
  match arg_body func args1 kwargs1 w with
  | (Ok v, w1) => (Ok v, (w1, log1), [EvCall None])
  | (Raise e, w1) =>
      if is_Exception e
      then
        if negb (String.eqb target default) && LANGUAGE_FALLBACK_ENABLED cfg
        then
          let logs1 :=
            language_error_log cfg (arg_name func) target e (Some default) in
          let '(args2, kwargs2) :=
            set_language_argument args1 kwargs1 default in
          match arg_body func args2 kwargs2 w1 with
          | (Ok v, w2) =>
              (Ok v, (w2, log1), EvCall None :: logs1 ++ [EvCall None])%list
          | (Raise e2, w2) =>
              if is_Exception e2
              then
                (Raise (mkExn LanguageErrorC
                          ("All language fallbacks failed in "
                           ++ arg_name func ++ ": " ++ str e2)),
                 (w2, log1),
                 EvCall None :: logs1 ++ EvCall None
                   :: language_error_log cfg (arg_name func) default e2
                        None)%list
              else
                (Raise e2, (w2, log1),
                 EvCall None :: logs1 ++ [EvCall None])%list
          end
        else
          (Raise (mkExn LanguageErrorC
                    ("Language operation failed in " ++ arg_name func
                     ++ ": " ++ str e)),
           (w1, log1),
           EvCall None :: language_error_log cfg (arg_name func) target e None)
      else (Raise e, (w1, log1), [EvCall None])
  end.
Proof.
  unfold with_language_fallback. cbv zeta.
  fold (effective_language args kwargs).
  destruct (set_language_argument args kwargs
              (fallback_code (effective_language args kwargs)))
    as [args1 kwargs1].
  unfold try_except at 1. unfold bind at 1.
  assert (Hinfo :
    (if negb (str_eq (fallback_code (effective_language args kwargs))
                (effective_language args kwargs))
        && ENABLE_FALLBACK_LOGGING cfg
     then logger_write
            (InfoLanguageFallback (effective_language args kwargs)
               (fallback_code (effective_language args kwargs))
               (arg_name func))
     else ret tt) (w, log) =
    (Ok tt, (w, fallback_info_log cfg (arg_name func)
                  (effective_language args kwargs) log), [])).
  { unfold fallback_info_log.
    destruct (negb _ && _)%bool; reflexivity. }
  rewrite Hinfo. unfold call, on_world. cbn [fst snd].
  destruct (arg_body func args1 kwargs1 w) as [[v|e] w1]; [reflexivity|].
  cbn [app]. destruct (is_Exception e); [|reflexivity].
  destruct (negb _ && LANGUAGE_FALLBACK_ENABLED cfg)%bool.
  - destruct (set_language_argument args1 kwargs1 _) as [args2 kwargs2].
    unfold bind at 1.
    rewrite log_language_error_run by now right.
    unfold try_except. cbn [fst snd].
    destruct (arg_body func args2 kwargs2 w1) as [[v|e2] w2];
      [reflexivity|].
    destruct (is_Exception e2); [|reflexivity].
    unfold bind. rewrite log_language_error_run by now left.
    unfold raise. cbn [app]. now rewrite app_nil_r.
  - unfold bind. rewrite log_language_error_run by now left.
    unfold raise. cbn [app]. now rewrite app_nil_r.
Qed.

Lemma count_calls_language_error_log (cfg : config)
    (operation language : string) (error : exn) (fb : option string) :
  count_calls (language_error_log cfg operation language error fb) = 0%nat.
Proof.
  unfold language_error_log. now destruct (ENABLE_FALLBACK_LOGGING cfg).
Qed.


Lemma third_argument (args : list pyval) (lang : pyval) :
  nth_error args 2 = Some lang ->
  (Z.of_nat (List.length args) >? 2)%Z = true /\ nth 2 args PyNone = lang.
Proof.
  destruct args as [|a0 [|a1 [|a2 rest]]]; try discriminate.
  intros [= <-]. split; [|reflexivity].
  cbn [List.length]. apply Z.gtb_lt. lia.
Qed.



Lemma dict_get_set (kwargs : list (string * pyval)) (key : string)
    (v : pyval) :
  LanguageService.dict_get (dict_set kwargs key v) key = Some v.
Proof.
  induction kwargs as [|[k x] rest IH]; cbn -[String.eqb].
  - now rewrite String.eqb_refl.
  - destruct (String.eqb k key) eqn:E; cbn -[String.eqb]; now rewrite E.
Qed.

Lemma dict_set_set (kwargs : list (string * pyval)) (key : string)
    (v v' : pyval) :
  dict_set (dict_set kwargs key v) key v' = dict_set kwargs key v'.
Proof.
  induction kwargs as [|[k x] rest IH]; cbn -[String.eqb].
  - now rewrite String.eqb_refl.
  - destruct (String.eqb k key) eqn:E; cbn -[String.eqb]; rewrite E;
      [reflexivity | now rewrite IH].
Qed.

Lemma list_set_length (args : list pyval) (i : nat) (v : pyval) :
  List.length (list_set args i v) = List.length args.
Proof.
  revert i; induction args as [|a args IH]; intros [|i]; cbn;
    try reflexivity. now rewrite IH.
Qed.

Lemma list_set_set (args : list pyval) (i : nat) (v v' : pyval) :
  list_set (list_set args i v) i v' = list_set args i v'.
Proof.
  revert i; induction args as [|a args IH]; intros [|i]; cbn;
    try reflexivity. now rewrite IH.
Qed.

(** Writing the language a second time overwrites the first. *)
Lemma set_language_argument_again (args : list pyval)
    (kwargs : list (string * pyval)) (lang lang' : string) :
  set_language_argument (fst (set_language_argument args kwargs lang))
    (snd (set_language_argument args kwargs lang)) lang' =
  set_language_argument args kwargs lang'.
Proof.
  unfold set_language_argument, dict_mem.
  destruct (LanguageService.dict_get kwargs "language") eqn:Hkw.
  - cbn [fst snd]. now rewrite dict_get_set, dict_set_set.
  - destruct (Z.of_nat (List.length args) >? 2)%Z eqn:Hlen; cbn [fst snd].
    + now rewrite Hkw, list_set_length, Hlen, list_set_set.
    + now rewrite Hkw, Hlen.
Qed.



(** * Properties of generate_summary_with_sentiment *)

Lemma get_fallback_language_code (v : pyval) :
  get_fallback_language v = Ok (PyStr (fallback_code v)).
Proof.
  unfold fallback_code. destruct (get_fallback_language_total v) as (l & ->).
  reflexivity.
Qed.

(** A value the loop returns is a value the operation returned. *)
Lemma try_languages_value {W A : Type} (cfg : config)
    (operation_name : string) (operation_func : string -> body W A)
    (chain todo : list string) (s s1 : W) (t : list event) (v : A) :
  try_languages cfg operation_name operation_func chain todo s
    = (Ok v, s1, t) ->
  exists lang s0, In lang todo /\ operation_func lang s0 = (Ok v, s1).
Proof.
  revert s t. induction todo as [|lang rest IH]; intros s t H.
  - discriminate H.
  - rewrite try_languages_step in H.
    destruct (operation_func lang s) as [[v0|e] s'] eqn:Hop.
    + injection H as <- <- _. exists lang, s. split; [now left | exact Hop].
    + destruct (is_Exception e); [|discriminate H].
      destruct (String.eqb lang (last chain "")); [discriminate H|].
      destruct (try_languages cfg operation_name operation_func chain rest s')
        as [[r2 s2] t2] eqn:Hrest.
      injection H as -> -> _.
      destruct (IH _ _ Hrest) as (l & s0 & Hin & Hl).
      exists l, s0. split; [now right | exact Hl].
Qed.

Lemma handle_language_operation_calls_le {W A : Type} (cfg : config)
    (operation_name : string) (operation_func : string -> body W A)
    (language : pyval) (s : W) :
  (count_calls
     (snd (handle_language_operation cfg operation_name operation_func
             language s)) <= 2)%nat.
Proof.
  destruct (fallback_chain_nonempty language) as (first & rest & Hchain).
  rewrite (handle_language_operation_eq _ operation_name operation_func
             language _ s Hchain).
  destruct (try_languages_outcome operation_name operation_func cfg
              (first :: rest) (first :: rest)) with (s := s)
    as ((_ & Hle) & _).
  - discriminate.
  - exact (fallback_chain_NoDup _ _ Hchain).
  - reflexivity.
  - assert (List.length (first :: rest) <= 2)%nat; [|lia].
    destruct (fallback_chain_cases language) as [E|(l & _ & E)];
      rewrite E in Hchain; injection Hchain as <- <-; cbn; lia.
Qed.

(** The final fallback returns the fallback dict and invokes nothing. *)
Lemma final_fallback_run {W : Type} (cfg : config)
    (article_text title : string) (language : pyval) (e : exn)
    (s : logged W) :
  exists s2 t2,
    NewsService.final_fallback W cfg article_text title language e s =
    (Ok (NewsService.mkSummary (create_fallback_summary article_text 200)
           "neutral" (PyStr (fallback_code language))), s2, t2) /\
    count_calls t2 = 0%nat.
Proof.
  unfold NewsService.final_fallback, bind, lift, ret.
  rewrite get_fallback_language_code.
  destruct (contains "429" (str e) || contains "quota" (lower (str e))).
  - unfold log_ai_service_error, emit, logger_write.
    eexists _, _. split; reflexivity.
  - rewrite log_language_error_run by now left.
    eexists _, _. split; [reflexivity|].
    cbn [app]. rewrite app_nil_r. apply count_calls_language_error_log.
Qed.

(** X21: [generate_summary_with_sentiment] always degrades: it lets out no
    exception of class [Exception]; the dict it returns is one the
    per-language function returned or the fallback dict (the fallback
    summary of the article, "neutral", the fallback language of the
    request); for an article shorter than [AI_SUMMARY_MIN_LENGTH], or
    with [USE_AI_SUMMARY] off, it returns the fallback dict without
    invoking the function or logging; and the function is invoked at most
    twice. *)
Theorem generate_summary_with_sentiment_degrades {W : Type} (cfg : config)
    (ai : NewsService.ai_settings)
    (for_language : string -> body W NewsService.summary_dict)
    (article_text title : string) (language : pyval) (s : logged W) :
  let out :=
    NewsService.generate_summary_with_sentiment W cfg ai for_language
      article_text title language s in
  let fallback :=
    NewsService.mkSummary (create_fallback_summary article_text 200)
      "neutral" (PyStr (fallback_code language)) in
  (forall e, fst (fst out) = Raise e -> is_Exception e = false) /\
  (forall d, fst (fst out) = Ok d ->
     d = fallback \/
     exists lang w w', for_language lang w = (Ok d, w')) /\
  ((len article_text < NewsService.AI_SUMMARY_MIN_LENGTH ai)%Z \/
   NewsService.USE_AI_SUMMARY ai = false ->
   out = (Ok fallback, s, [])) /\
  (count_calls (snd out) <= 2)%nat.
Proof.
  cbv zeta. unfold NewsService.generate_summary_with_sentiment.
  destruct ((len article_text <? NewsService.AI_SUMMARY_MIN_LENGTH ai)%Z
            || negb (NewsService.USE_AI_SUMMARY ai)) eqn:Hshort.
  - unfold try_except, bind, lift, ret.
    rewrite get_fallback_language_code. cbn.
    repeat split; try discriminate; try lia.
    intros d [= <-]. now left.
  - assert (Hlong : ~ ((len article_text
                        < NewsService.AI_SUMMARY_MIN_LENGTH ai)%Z \/
                       NewsService.USE_AI_SUMMARY ai = false)).
    { apply orb_false_iff in Hshort. destruct Hshort as (H1 & H2).
      apply Z.ltb_ge in H1. apply negb_false_iff in H2.
      intros [?|?]; [lia | congruence]. }
    pose proof (handle_language_operation_calls_le cfg
                  "generate_summary_with_sentiment"
                  (fun lang => on_world (for_language lang)) language s)
      as Hcalls.
    unfold try_except.
    destruct (handle_language_operation cfg _ _ language s)
      as [[[d|e] s1] t] eqn:Hrun; cbn [snd] in Hcalls.
    + cbn [fst snd]. repeat split; try discriminate; try tauto;
        try exact Hcalls.
      intros d' [= <-]. right.
      unfold handle_language_operation, bind, lift in Hrun.
      destruct (get_language_fallback_chain language) as [chain|e0];
        [|discriminate Hrun].
      destruct (try_languages cfg _ _ chain chain s) as [[r2 s2] t2] eqn:Ht.
      injection Hrun as -> -> _.
      destruct (try_languages_value _ _ _ _ _ _ _ _ _ Ht)
        as (lang & s0 & _ & Hop).
      unfold on_world in Hop.
      destruct (for_language lang (fst s0)) as [r w'] eqn:Hfor.
      injection Hop as -> _. eauto.
    + destruct (is_Exception e) eqn:Hexc.
      * destruct (final_fallback_run cfg article_text title language e s1)
          as (s2 & t2 & -> & Ht2).
        cbn [fst snd]. rewrite count_calls_app, Ht2.
        repeat split; try discriminate; try tauto; try lia.
        intros d [= <-]. now left.
      * cbn [fst snd]. repeat split; try discriminate; try tauto;
          try exact Hcalls.
        intros e' [= <-]. exact Hexc.
Qed.

(** * Properties of the TTS language *)

Lemma fallback_code_valid (v : pyval) :
  validate_language (PyStr (fallback_code v)) = true.
Proof.
  unfold fallback_code, get_fallback_language.
  destruct (validate_language v) eqn:Hv; [|reflexivity].
  destruct v; try (rewrite validate_language_non_str in Hv by reflexivity;
                   discriminate).
  cbn [py_lower]. apply validate_language_str. rewrite lower_idem.
  now apply validate_language_str.
Qed.

(** X22: the language a [TTSService] holds always passes
    [validate_language]: [__init__] and [set_language] store the fallback
    code of what they are given (for [__init__] without a language, that
    of [Config.TTS_LANGUAGE]), and [_get_target_language] returns the
    fallback code of a truthy request and the stored language
    otherwise. *)
Theorem tts_language_invariant (self : TTSService.service)
    (language : pyval) (slow : option bool) :
  (exists code,
     TTSService.init language slow
       = Ok (TTSService.mkService (PyStr code)
               (match slow with Some b => b | None => false end)) /\
     code = (if truthy language then fallback_code language else "en") /\
     validate_language (PyStr code) = true) /\
  (TTSService.set_language self language
     = Ok (TTSService.mkService (PyStr (fallback_code language))
             (TTSService.slow self)) /\
   validate_language (PyStr (fallback_code language)) = true) /\
  (validate_language (TTSService.default_language self) = true ->
   exists target,
     TTSService._get_target_language self language = Ok target /\
     target = (if truthy language then PyStr (fallback_code language)
               else TTSService.default_language self) /\
     validate_language target = true).
Proof.
  split; [|split].
  - unfold TTSService.init, py_or.
    destruct (truthy language) eqn:Ht.
    + rewrite Ht, get_fallback_language_code.
      eexists. split; [reflexivity|]. split; [reflexivity|].
      apply fallback_code_valid.
    + cbn [truthy TTSService.TTS_LANGUAGE String.eqb negb].
      eexists. split; [reflexivity|]. split; reflexivity.
  - unfold TTSService.set_language. rewrite get_fallback_language_code.
    split; [reflexivity | apply fallback_code_valid].
  - intros Hself. unfold TTSService._get_target_language.
    destruct (truthy language).
    + rewrite get_fallback_language_code. eexists.
      split; [reflexivity|]. split; [reflexivity|].
      apply fallback_code_valid.
    + eexists. split; [reflexivity|]. split; [reflexivity | exact Hself].
Qed.

(** X23: the speech code of a language that came out of
    [get_fallback_language] is that language itself, unless the request
    was a supported code with surrounding whitespace: the fallback code
    then keeps the whitespace and [_get_tts_language_code] raises
    [KeyError] on it. *)
Theorem tts_language_code_of_fallback (requested : pyval) :
  let code := fallback_code requested in
  (strip code = code ->
   TTSService._get_tts_language_code (PyStr code) = Value code) /\
  (strip code <> code ->
   TTSService._get_tts_language_code (PyStr code) = KeyError code) /\
  TTSService._get_tts_language_code (PyStr (fallback_code (PyStr " hi ")))
    = KeyError " hi ".
Proof.
  cbv zeta.
  assert (Hl : lower (fallback_code requested) = fallback_code requested).
  { unfold fallback_code, get_fallback_language.
    destruct (validate_language requested) eqn:Hv; [|reflexivity].
    destruct requested; try reflexivity. cbn [py_lower]. apply lower_idem. }
  pose proof (fallback_code_valid requested) as Hv.
  destruct (catalog_index_lower _ Hv) as (Hok & Herr). rewrite Hl in *.
  unfold TTSService._get_tts_language_code, get_tts_code, dict_index.
  rewrite Hv, Hl. cbn [negb].
  split; [|split; [|reflexivity]].
  - intros Hs. destruct (Hok Hs) as (d & -> & ->).
    destruct (String.eqb_spec (fallback_code requested) "") as [E|_];
      [|reflexivity].
    rewrite E in Hv. discriminate Hv.
  - intros Hs. now rewrite (Herr Hs).
Qed.

(** * Retries inside the fallback chain *)

(** If one invocation of the operation raises a measure of the state by
    at most [n], the loop raises it by at most [n] per language. *)
Lemma try_languages_measure {W A : Type} (cfg : config)
    (operation_name : string) (operation_func : string -> body W A)
    (chain : list string) (measure : W -> nat) (n : nat) :
  (forall lang s,
     (measure (snd (operation_func lang s)) <= measure s + n)%nat) ->
  forall todo s,
    (measure (snd (fst (try_languages cfg operation_name operation_func
                          chain todo s)))
     <= measure s + List.length todo * n)%nat.
Proof.
  intros Hstep. induction todo as [|lang rest IH]; intros s.
  - cbn. lia.
  - rewrite try_languages_step. specialize (Hstep lang s).
    destruct (operation_func lang s) as [[v|e] s']; cbn [snd] in Hstep.
    + cbn. lia.
    + destruct (is_Exception e); [|cbn; lia].
      destruct (String.eqb lang (last chain "")); [cbn; lia|].
      specialize (IH s').
      destruct (try_languages cfg operation_name operation_func chain rest s')
        as [[r2 s2] t].
      cbn [fst snd List.length] in *. lia.
Qed.

(** X24: when the operation passed to [handle_language_operation] is a
    method decorated with [with_retry], the undecorated method is invoked
    at most twice [max_attempts] times in all (two languages, each with
    its retries): at most 6 times with the settings of [Config]. *)
Theorem retries_inside_fallback_chain {W A : Type} (cfg : config)
    (max_attempts : option Z) (base_delay : option Q)
    (exponential_backoff : bool) (operation_name : string)
    (method : string -> pyfunc W A) (language : pyval) (w : W) :
  let out :=
    handle_language_operation cfg operation_name
      (with_retry_method cfg max_attempts base_delay exponential_backoff
         method) language (w, []) in
  (count_calls (snd (snd (fst out)))
   <= 2 * Z.to_nat (or_int max_attempts (MAX_RETRY_ATTEMPTS cfg)))%nat /\
  (2 * Z.to_nat (or_int None (MAX_RETRY_ATTEMPTS Config)) = 6)%nat.
Proof.
  cbv zeta. split; [|reflexivity].
  destruct (fallback_chain_nonempty language) as (first & rest & Hchain).
  rewrite (handle_language_operation_eq _ operation_name _ language _ _
             Hchain).
  pose proof (try_languages_measure cfg operation_name
                (with_retry_method cfg max_attempts base_delay
                   exponential_backoff method)
                (first :: rest) (fun s => count_calls (snd s))
                (Z.to_nat (or_int max_attempts (MAX_RETRY_ATTEMPTS cfg))))
    as Hmeasure.
  cbv beta in Hmeasure.
  assert (Hlen : (List.length (first :: rest) <= 2)%nat).
  { destruct (fallback_chain_cases language) as [E|(l & _ & E)];
      rewrite E in Hchain; injection Hchain as <- <-; cbn; lia. }
  specialize (Hmeasure ltac:(
    intros lang s; unfold with_retry_method;
    pose proof (retry_loop_calls_le
                  (or_int max_attempts (MAX_RETRY_ATTEMPTS cfg))
                  (or_delay base_delay (RETRY_DELAY cfg))
                  exponential_backoff (method lang)
                  (range (or_int max_attempts (MAX_RETRY_ATTEMPTS cfg)))
                  None (fst s)) as Hle;
    rewrite range_length in Hle; unfold retry_loop in Hle;
    unfold with_retry;
    destruct (retry_attempts _ _ _ _ _ None (fst s)) as [[r w'] t];
    cbn [snd] in *; rewrite count_calls_app; lia)
    (first :: rest) (w, [])).
  cbn [snd count_calls filter List.length] in Hmeasure.
  change (List.length (@nil event)) with 0%nat in Hmeasure.
  cbn [List.length] in Hlen.
  etransitivity; [exact Hmeasure|]. cbn [plus].
  apply Nat.mul_le_mono_r. lia.
Qed.
